(** * VitrineAlu marketing services: ingestion pipeline and background
      orchestration

    A shallow embedding of the orchestration code of the repository:

    - [services/background-service/src/limits.py]   (module [Limits])
    - [services/media_ingest/.../config.py]         (module [IngestConfig])
    - [services/media_ingest/.../curation.py]       (module [Curation])
    - [services/media_ingest/.../pipeline.py]       (module [Pipeline])
    - [services/background-service/src/generate.py] (module [Generate])
    - [services/background-service/src/runway_adapter.py] (module [Runway])
    - [services/background-service/src/models.py], [main.py]
                                                    (module [Service])

    Python objects with mutable attributes become records threaded through
    the functions; a call that may raise returns a [result]; clock readings
    ([time.monotonic()], [time.time()]) are inputs of the functions and are
    exact rationals; model inference, image codecs and the network are
    collaborators whose behaviour is an argument of the embedding. *)

From Stdlib Require Import ZArith QArith Qcanon Qround Lqa Lia Bool List.
From stdpp Require Import base option gmap strings list fin_maps pretty.

Local Open Scope Z_scope.

(** ** Python values shared by all modules *)

Module Py.

(** The exception classes the modelled code raises or catches.  Every
    constructor is a subclass of Python's [Exception].  A message keeps the
    literal text of the source; the task ids, paths and numbers an f-string
    interpolates into it are left out. *)
Inductive exn : Type :=
| NameError (name : string)
| ImportError (name : string)
| KeyError (key : string)
| ValueError (msg : string)
| OSError (msg : string)
| RuntimeError (msg : string)
| TimeoutError (msg : string)
| RequestException (msg : string)
| OversizeError (msg : string)
| RateLimitError (msg : string)
| HTTPException (status_code : Z) (detail : string)
| OtherException (msg : string).

Inductive result (A : Type) : Type :=
| Ok (a : A)
| Raise (e : exn).
Arguments Ok {A} a.
Arguments Raise {A} e.

Definition is_ok {A} (r : result A) : bool :=
  match r with Ok _ => true | Raise _ => false end.

(** [int(x)] on a real number truncates toward zero. *)
Definition int (q : Q) : Z :=
  if Qle_bool 0 q then Qfloor q else Qceiling q.

(** [a < b] on numbers. *)
Definition Qltb (a b : Q) : bool := negb (Qle_bool b a).

(** [str(e)], as interpolated into messages. *)
Definition str (e : exn) : string :=
  match e with
  | NameError name => "name '" ++ name ++ "' is not defined"
  | ImportError name => "cannot import name '" ++ name ++ "'"
  | KeyError key => "'" ++ key ++ "'"
  | ValueError msg | OSError msg | RuntimeError msg | TimeoutError msg
  | RequestException msg | OversizeError msg | RateLimitError msg
  | OtherException msg => msg
  | HTTPException _ detail => detail
  end.

(** *** Code that mutates a state [S] and may raise

    An exception leaves the mutations made before it in place. *)

Definition M (S A : Type) : Type := S -> result A * S.

Definition ret {S A} (a : A) : M S A := fun st => (Ok a, st).

Definition raise {S A} (e : exn) : M S A := fun st => (Raise e, st).

Definition bind {S A B} (m : M S A) (k : A -> M S B) : M S B :=
  fun st =>
    match m st with
    | (Ok a, st1) => k a st1
    | (Raise e, st1) => (Raise e, st1)
    end.

Definition lift {S A} (r : result A) : M S A := fun st => (r, st).

Definition fail_if {S} (e : option exn) : M S unit :=
  match e with
  | Some e => raise e
  | None => ret tt
  end.

(** [try: body except Exception as e: handler(e)] *)
Definition try_except {S A} (body : M S A) (handler : exn -> M S A)
  : M S A :=
  fun st =>
    match body st with
    | (Ok a, st1) => (Ok a, st1)
    | (Raise e, st1) => handler e st1
    end.

End Py.
Export Py.

Notation "'do' x <- m ; k" := (Py.bind m (fun x => k))
  (at level 10, x name, m at level 99, k at level 200).
Notation "m ;; k" := (Py.bind m (fun _ => k))
  (at level 100, k at level 200, right associativity).

(** ** limits.py *)

Module Limits.

Record TokenBucketLimiter : Type := {
  capacity : Z;
  tokens : Z;
  allow_4k : bool;
  last_refill : Q
}.

(** [TokenBucketLimiter.__init__]; [now] is the reading of
    [time.monotonic()]. *)
Definition __init__ (rate_per_minute : Z) (allow : bool) (now : Q)
  : TokenBucketLimiter :=
  {| capacity := rate_per_minute; tokens := rate_per_minute;
     allow_4k := allow; last_refill := now |}.

Definition refill_amount (now : Q) (self : TokenBucketLimiter) : Z :=
  let elapsed := (now - last_refill self)%Q in
  Py.int (elapsed * (inject_Z (capacity self) / 60))%Q.

Definition _refill (now : Q) (self : TokenBucketLimiter)
  : TokenBucketLimiter :=
  let refill := refill_amount now self in
  if 0 <? refill then
    {| capacity := capacity self;
       tokens := Z.min (capacity self) (tokens self + refill);
       allow_4k := allow_4k self;
       last_refill := now |}
  else self.

Definition oversize (size : Z * Z) : bool :=
  (4096 <? fst size) || (4096 <? snd size).

Definition acquire (now : Q) (size : Z * Z) (self : TokenBucketLimiter)
  : result bool * TokenBucketLimiter :=
  let self := _refill now self in
  if oversize size && negb (allow_4k self) then
    (Raise (OversizeError "Requested size exceeds 4K and ALLOW_4K is not set"), self)
  else if 0 <? tokens self then
    (Ok true,
     {| capacity := capacity self; tokens := tokens self - 1;
        allow_4k := allow_4k self; last_refill := last_refill self |})
  else (Raise (RateLimitError "Too many requests"), self).

(** A sequence of [acquire] calls, each with its clock reading and size. *)
Fixpoint acquire_all (calls : list (Q * (Z * Z))) (self : TokenBucketLimiter)
  : list (result bool) * TokenBucketLimiter :=
  match calls with
  | [] => ([], self)
  | (now, size) :: rest =>
      let '(r, self1) := acquire now size self in
      let '(rs, self2) := acquire_all rest self1 in
      (r :: rs, self2)
  end.

End Limits.

(** ** media_ingest/config.py *)

Module IngestConfig.

(** The fields of [MediaIngestConfig] the pipeline reads. *)
Record MediaIngestConfig : Type := {
  concurrency : Z;
  aesthetic_threshold : Q;
  sharpness_threshold : Q;
  duplicate_hamming_threshold : Z;
  watermark_path : option string;
  face_blur_enabled : bool;
  enhancement_backend : string;
  enhancement_scale : Z
}.

(** The defaults declared by the [Field(...)] initialisers. *)
Definition defaults : MediaIngestConfig :=
  {| concurrency := 4;
     aesthetic_threshold := 5 # 10;
     sharpness_threshold := 100 # 1;
     duplicate_hamming_threshold := 5;
     watermark_path := None;
     face_blur_enabled := true;
     enhancement_backend := "realesrgan";
     enhancement_scale := 2 |}.

End IngestConfig.

(** ** media_ingest/curation.py *)

Module Curation.
Import IngestConfig.

(** [compute_perceptual_hash] returns [str(dhash(image))]: a string of
    hexadecimal digits.  The type below is the type of such strings. *)
Inductive hexdigit : Type :=
| x0 | x1 | x2 | x3 | x4 | x5 | x6 | x7
| x8 | x9 | xa | xb | xc | xd | xe | xf.

Definition digit_value (d : hexdigit) : N :=
  match d with
  | x0 => 0 | x1 => 1 | x2 => 2 | x3 => 3 | x4 => 4 | x5 => 5 | x6 => 6
  | x7 => 7 | x8 => 8 | x9 => 9 | xa => 10 | xb => 11 | xc => 12
  | xd => 13 | xe => 14 | xf => 15
  end%N.

Definition digit_of_value (n : N) : option hexdigit :=
  match n with
  | 0 => Some x0 | 1 => Some x1 | 2 => Some x2 | 3 => Some x3
  | 4 => Some x4 | 5 => Some x5 | 6 => Some x6 | 7 => Some x7
  | 8 => Some x8 | 9 => Some x9 | 10 => Some xa | 11 => Some xb
  | 12 => Some xc | 13 => Some xd | 14 => Some xe | 15 => Some xf
  | _ => None
  end%N.

#[global] Instance hexdigit_eq_dec : EqDecision hexdigit.
Proof. solve_decision. Defined.

#[global] Program Instance hexdigit_countable : Countable hexdigit :=
  inj_countable digit_value digit_of_value _.
Next Obligation. by intros []. Qed.

Definition PerceptualHash : Type := list hexdigit.

(** [int(hash, 16)] *)
Definition int16 (s : PerceptualHash) : N :=
  fold_left (fun acc d => (16 * acc + digit_value d)%N) s 0%N.

(** [bin(n).count('1')] for a non-negative [n]. *)
Fixpoint count_ones_pos (p : positive) : Z :=
  match p with
  | xH => 1
  | xO q => count_ones_pos q
  | xI q => 1 + count_ones_pos q
  end.

Definition count_ones (n : N) : Z :=
  match n with
  | N0 => 0
  | Npos p => count_ones_pos p
  end.


Definition is_duplicate (cfg : MediaIngestConfig)
    (hash1 hash2 : PerceptualHash) (threshold : option Z) : bool :=
  let threshold :=
    match threshold with
    | None => duplicate_hamming_threshold cfg
    | Some t => t
    end in
  let h1 := int16 hash1 in
  let h2 := int16 hash2 in
  let distance := count_ones (N.lxor h1 h2) in
  distance <=? threshold.

(** The scores dictionary built by [score_image]. *)
Record ScoreSet : Type := {
  aesthetic : Q;
  sharpness : Q;
  exposure : Q;
  blur : Q
}.

Definition scores_dict (s : ScoreSet) : gmap string Q :=
  <["blur" := blur s]>
    (<["exposure" := exposure s]>
       (<["sharpness" := sharpness s]>
          (<["aesthetic" := aesthetic s]> ∅))).

(** The messages appended to [reasons]; the two numbers of a message are
    the ones the f-string formats. *)
Inductive reason : Type :=
| aesthetic_below (score threshold : Q)
| sharpness_below (score threshold : Q)
| poor_exposure (score : Q).

(** [scores.get(key, 0)] and [scores[key]] *)
Definition get0 (scores : gmap string Q) (key : string) : Q :=
  default 0%Q (scores !! key).

Definition getitem (scores : gmap string Q) (key : string) : result Q :=
  match scores !! key with
  | Some v => Ok v
  | None => Raise (KeyError key)
  end.

Definition should_keep_image (cfg : MediaIngestConfig)
    (scores : gmap string Q) : result (bool * list reason) :=
  let reasons := [] in
  match
    (if Qltb (get0 scores "aesthetic") (aesthetic_threshold cfg) then
       match getitem scores "aesthetic" with
       | Ok v => Ok (reasons ++ [aesthetic_below v (aesthetic_threshold cfg)])
       | Raise e => Raise e
       end
     else Ok reasons)
  with
  | Raise e => Raise e
  | Ok reasons =>
  match
    (if Qltb (get0 scores "sharpness") (sharpness_threshold cfg) then
       match getitem scores "sharpness" with
       | Ok v => Ok (reasons ++ [sharpness_below v (sharpness_threshold cfg)])
       | Raise e => Raise e
       end
     else Ok reasons)
  with
  | Raise e => Raise e
  | Ok reasons =>
  match
    (if Qltb (get0 scores "exposure") (3 # 10) then
       match getitem scores "exposure" with
       | Ok v => Ok (reasons ++ [poor_exposure v])
       | Raise e => Raise e
       end
     else Ok reasons)
  with
  | Raise e => Raise e
  | Ok reasons =>
      let kept := Nat.eqb (length reasons) 0 in
      Ok (kept, reasons)
  end end end.

(** The policy of [should_keep_image] read off a full score set: one
    reason per failed threshold, in the order of the three checks. *)
Definition violated (cfg : MediaIngestConfig) (s : ScoreSet)
  : list reason :=
  (if Qltb (aesthetic s) (aesthetic_threshold cfg)
   then [aesthetic_below (aesthetic s) (aesthetic_threshold cfg)] else [])
  ++ (if Qltb (sharpness s) (sharpness_threshold cfg)
      then [sharpness_below (sharpness s) (sharpness_threshold cfg)] else [])
  ++ (if Qltb (exposure s) (3 # 10)
      then [poor_exposure (exposure s)] else []).

(** The loop of [check_duplicate] over the hashes seen so far. *)
Fixpoint scan_seen (cfg : MediaIngestConfig) (image_hash : PerceptualHash)
    (seen : list PerceptualHash) : bool :=
  match seen with
  | [] => false
  | seen_hash :: rest =>
      if is_duplicate cfg image_hash seen_hash None then true
      else scan_seen cfg image_hash rest
  end.

(** [check_duplicate]: the engine's [seen_hashes] set is threaded through. *)
Definition check_duplicate (cfg : MediaIngestConfig)
    (image_hash : PerceptualHash) (seen_hashes : gset PerceptualHash)
  : bool * gset PerceptualHash :=
  if scan_seen cfg image_hash (elements seen_hashes) then (true, seen_hashes)
  else (false, {[image_hash]} ∪ seen_hashes).

End Curation.

(** ** media_ingest/pipeline.py *)

Module Pipeline.
Import IngestConfig Curation.

(** A [pathlib.Path], split as [Path.parent], [Path.stem], [Path.suffix]. *)
Record Path : Type := {
  parent : string;
  stem : string;
  suffix : string
}.

(** [Path.with_suffix] *)
Definition with_suffix (p : Path) (s : string) : Path :=
  {| parent := parent p; stem := stem p; suffix := s |}.

(** Pixel data of an image, whatever the library holding it. *)
Definition image : Type := list N.

(** A row of the [processed] table; [sha256] is the primary key and keys
    the map. *)
Record row : Type := {
  source_path : Path;
  output_path : Path;
  processed_at : string;
  source : string
}.

(** The dictionary written by [create_sidecar_json]. *)
Record metadata : Type := {
  md_source : string;
  md_original_path : Path;
  md_output_path : Path;
  md_processed_at : string;
  md_scores : gmap string Q;
  md_kept : bool;
  md_reasons : list reason;
  md_backend : string;
  md_scale : Z;
  md_faces_blurred : bool;
  md_watermark : option string;
  md_brand : string
}.

Inductive file_content : Type :=
| image_file (img : image) (quality : Z)
| json_file (md : metadata).

Inductive log_line : Type :=
| log_processing (p : Path) (src : string)
| log_skip_processed (p : Path)
| log_skip_duplicate (p : Path)
| log_rejecting (p : Path) (reasons : list reason)
| log_success (p out : Path)
| log_error (p : Path) (e : exn)
| log_batch_error (e : exn).

(** Everything the pipeline mutates: the sqlite table, the curation
    engine's [seen_hashes], the files written under the output directory
    (latest first) and standard output (latest first). *)
Record state : Type := {
  db : gmap string row;
  seen_hashes : gset PerceptualHash;
  written : list (Path * file_content);
  stdout : list log_line
}.

Definition empty_state : state :=
  {| db := ∅; seen_hashes := ∅; written := []; stdout := [] |}.

(** The collaborators of one run: the file system being read, the sqlite
    connection, the image libraries and the transform stages. *)
Record world : Type := {
  read_bytes : Path -> result (list N);
  select_error : option exn;
  insert_error : option exn;
  image_open : Path -> result image;
  imread : Path -> result (option image);
  perceptual_hash : Path -> result PerceptualHash;
  score_image : Path -> result (gmap string Q);
  process_image : image -> result image;
  apply_watermark : image -> result image;
  cvtColor : image -> result image;
  blur_faces : image -> result image;
  fromarray : image -> result image;
  output_path_for : list (Path * file_content) -> Path -> result Path;
  save_error : Path -> option exn;
  json_error : Path -> option exn;
  now_iso : string
}.

Definition M (A : Type) : Type := Py.M state A.

Definition print (l : log_line) : M unit :=
  fun st =>
    (Ok tt, {| db := db st; seen_hashes := seen_hashes st;
               written := written st; stdout := l :: stdout st |}).

(** *** ProcessedDatabase *)

Definition is_processed (w : world) (sha256 : string) : M bool :=
  fail_if (select_error w) ;;
  fun st => (Ok (bool_decide (is_Some (db st !! sha256))), st).

Definition mark_processed (w : world) (sha256 : string)
    (source_path output_path : Path) (source : string) : M unit :=
  fail_if (insert_error w) ;;
  fun st =>
    (Ok tt,
     {| db := <[sha256 :=
                  {| source_path := source_path;
                     output_path := output_path;
                     processed_at := now_iso w;
                     source := source |}]> (db st);
        seen_hashes := seen_hashes st;
        written := written st;
        stdout := stdout st |}).

(** *** Module globals *)

(** The names bound at module level in [pipeline.py]: its imports and its
    own definitions. *)
Definition module_globals : list string :=
  ["hashlib"; "json"; "shutil"; "sqlite3"; "datetime"; "Path"; "Dict";
   "List"; "Optional"; "Tuple"; "cv2"; "Image"; "config";
   "curation_engine"; "enhancer"; "face_blurrer"; "watermark_applier";
   "ProcessedDatabase"; "MediaPipeline"; "pipeline"].

(** Evaluating a global name that the module does not bind. *)
Definition load_global (name : string) : M unit :=
  if bool_decide (name ∈ module_globals) then ret tt
  else raise (NameError name).

(** *** MediaPipeline *)

Section MediaPipeline.

(** [hashlib.sha256(...).hexdigest()] over the bytes of a file. *)
Variable sha256_hexdigest : list N -> string.

Variable w : world.
Variable config : MediaIngestConfig.

Definition compute_sha256 (file_path : Path) : M string :=
  do bytes <- lift (read_bytes w file_path);
  ret (sha256_hexdigest bytes).

Definition curation_check_duplicate (h : PerceptualHash) : M bool :=
  fun st =>
    let '(dup, seen) := check_duplicate config h (seen_hashes st) in
    (Ok dup, {| db := db st; seen_hashes := seen;
                written := written st; stdout := stdout st |}).

Definition write_file (p : Path) (c : file_content) : M unit :=
  fun st =>
    (Ok tt, {| db := db st; seen_hashes := seen_hashes st;
               written := (p, c) :: written st; stdout := stdout st |}).

Definition generate_output_path (original_path : Path) : M Path :=
  fun st => (output_path_for w (written st) original_path, st).

Definition save (img : image) (p : Path) (quality : Z) : M unit :=
  fail_if (save_error w p) ;;
  write_file p (image_file img quality).

Definition create_sidecar_json (output_path : Path) (md : metadata)
  : M unit :=
  let json_path := with_suffix output_path ".json" in
  fail_if (json_error w json_path) ;;
  write_file json_path (json_file md).

(** The body of the [try] block of [process_file]. *)
Definition process_file_body (input_path : Path) (source : string)
  : M (option Path) :=
  print (log_processing input_path source) ;;
  do file_hash <- compute_sha256 input_path;
  do processed <- is_processed w file_hash;
  if processed then
    print (log_skip_processed input_path) ;; ret None
  else
  do pil_image <- lift (image_open w input_path);
  do cv_image <- lift (imread w input_path);
  do perceptual_hash <- lift (perceptual_hash w input_path);
  do dup <- curation_check_duplicate perceptual_hash;
  if dup then
    print (log_skip_duplicate input_path) ;; ret None
  else
  do scores <- lift (score_image w input_path);
  do decision <- lift (should_keep_image config scores);
  let '(keep, reasons) := decision in
  if negb keep then
    print (log_rejecting input_path reasons) ;; ret None
  else
  do enhanced_pil <- lift (process_image w pil_image);
  do watermarked_pil <- lift (apply_watermark w enhanced_pil);
  do final_pil <-
    (if face_blur_enabled config then
       load_global "cv2" ;;
       load_global "np" ;;
       do watermarked_cv <- lift (cvtColor w watermarked_pil);
       do blurred_cv <- lift (blur_faces w watermarked_cv);
       do rgb <- lift (cvtColor w blurred_cv);
       lift (fromarray w rgb)
     else ret watermarked_pil);
  do output_path <- generate_output_path input_path;
  save final_pil output_path 95 ;;
  let metadata :=
    {| md_source := source;
       md_original_path := input_path;
       md_output_path := output_path;
       md_processed_at := now_iso w;
       md_scores := scores;
       md_kept := true;
       md_reasons := [];
       md_backend := enhancement_backend config;
       md_scale := enhancement_scale config;
       md_faces_blurred := face_blur_enabled config;
       md_watermark := watermark_path config;
       md_brand := "vitrinealu" |} in
  create_sidecar_json output_path metadata ;;
  mark_processed w file_hash input_path output_path source ;;
  print (log_success input_path output_path) ;;
  ret (Some output_path).

Definition process_file (input_path : Path) (source : string)
  : M (option Path) :=
  try_except (process_file_body input_path source)
    (fun e => print (log_error input_path e) ;; ret None).

(** The futures of [process_batch], run one after the other in
    submission order. *)
Fixpoint submit_all (file_paths : list Path) (source : string)
  : state -> list (result (option Path)) * state :=
  fun st =>
    match file_paths with
    | [] => ([], st)
    | path :: rest =>
        let '(r, st1) := process_file path source st in
        let '(rs, st2) := submit_all rest source st1 in
        (r :: rs, st2)
    end.

(** The loop over [futures] collecting the results. *)
Fixpoint collect (futures : list (result (option Path)))
    (results : list Path) : M (list Path) :=
  match futures with
  | [] => ret results
  | future :: rest =>
      do results <-
        try_except
          (do result <- lift future;
           match result with
           | Some p => ret (results ++ [p])
           | None => ret results
           end)
          (fun e => print (log_batch_error e) ;; ret results);
      collect rest results
  end.

(** [max_workers or config.concurrency] *)
Definition workers (max_workers : option Z) : Z :=
  match max_workers with
  | Some n => if n =? 0 then concurrency config else n
  | None => concurrency config
  end.

Definition process_batch (file_paths : list Path) (source : string)
    (max_workers : option Z) : M (list Path) :=
  let max_workers := workers max_workers in
  if max_workers <=? 0 then
    raise (ValueError "max_workers must be greater than 0")
  else
    fun st =>
      let '(futures, st1) := submit_all file_paths source st in
      collect futures [] st1.

End MediaPipeline.

(** *** Sample inputs *)

Definition door : Path :=
  {| parent := "/nas/photos"; stem := "door"; suffix := ".jpg" |}.

Definition door_copy : Path :=
  {| parent := "/nas/photos"; stem := "door (1)"; suffix := ".jpg" |}.


Definition fine_scores : ScoreSet :=
  {| aesthetic := 9 # 10; sharpness := 150 # 1; exposure := 5 # 10;
     blur := 150 # 1 |}.

(** A world where every stage works, except that [torn] cannot be opened
    as an image. *)
Definition studio : world :=
  {| read_bytes := fun p =>
       if String.eqb (stem p) "torn" then Ok [7; 7]%N else Ok [1; 2; 3]%N;
     select_error := None;
     insert_error := None;
     image_open := fun p =>
       if String.eqb (stem p) "torn"
       then Raise (OSError "cannot identify image file")
       else Ok [10; 20; 30]%N;
     imread := fun _ => Ok (Some [30; 20; 10]%N);
     perceptual_hash := fun _ => Ok [x0; xf; x3; xc];
     score_image := fun _ => Ok (scores_dict fine_scores);
     process_image := fun img => Ok (img ++ img);
     apply_watermark := fun img => Ok (255%N :: img);
     cvtColor := fun img => Ok (rev img);
     blur_faces := fun img => Ok img;
     fromarray := fun img => Ok img;
     output_path_for := fun _ p =>
       Ok {| parent := "/media/curated/2025/01/" ++ stem p;
             stem := stem p; suffix := suffix p |};
     save_error := fun _ => None;
     json_error := fun _ => None;
     now_iso := "2025-01-15T10:00:00" |}.

Definition blur_off : MediaIngestConfig :=
  {| concurrency := 4;
     aesthetic_threshold := 5 # 10;
     sharpness_threshold := 100 # 1;
     duplicate_hamming_threshold := 5;
     watermark_path := None;
     face_blur_enabled := false;
     enhancement_backend := "realesrgan";
     enhancement_scale := 2 |}.

(** A stand-in for the digest in examples: it tells apart the contents
    the sample world serves. *)
Definition toy_digest (bytes : list N) : string :=
  match bytes with
  | 7%N :: _ => "7d1a"
  | _ => "039f"
  end.

(** The paths the futures returned, in order. *)
Fixpoint outputs_of (futures : list (result (option Path))) : list Path :=
  match futures with
  | [] => []
  | Ok (Some p) :: rest => p :: outputs_of rest
  | _ :: rest => outputs_of rest
  end.

(** A later call of [process_file], with the world and configuration in
    force when it runs. *)
Record call : Type := {
  call_world : world;
  call_config : MediaIngestConfig;
  call_path : Path;
  call_source : string
}.

Fixpoint run_calls (sha256_hexdigest : list N -> string)
    (calls : list call) (st : state) : state :=
  match calls with
  | [] => st
  | c :: rest =>
      run_calls sha256_hexdigest rest
        (snd (process_file sha256_hexdigest (call_world c) (call_config c)
                (call_path c) (call_source c) st))
  end.

End Pipeline.

(** ** background-service/src/generate.py *)

Module Generate.

(** The pixel buffer of a [numpy] array. *)
Definition ndarray : Type := list N.

(** [(prompt, negative_prompt, width, height, steps, guidance_scale, seed)] *)
Definition cache_key : Type :=
  string * string * Z * Z * Z * Qc * option Z.

Inductive log_line : Type :=
| log_cache_hit (key : cache_key)
| log_generating (prompt : string) (width height steps : Z)
| log_complete
| log_failed (e : exn).

(** [SDXLGenerator]: [pipeline_loaded] is [self.pipeline is not None];
    [log] is what the calls have logged, latest first. *)
Record SDXLGenerator : Type := {
  pipeline_loaded : bool;
  _cache : gmap cache_key ndarray;
  log : list log_line
}.

Definition is_available (self : SDXLGenerator) : bool :=
  pipeline_loaded self.

Definition log_info (l : log_line) : M SDXLGenerator unit :=
  fun self =>
    (Ok tt, {| pipeline_loaded := pipeline_loaded self;
               _cache := _cache self; log := l :: log self |}).

Definition cache_store (key : cache_key) (img : ndarray)
  : M SDXLGenerator unit :=
  fun self =>
    (Ok tt, {| pipeline_loaded := pipeline_loaded self;
               _cache := <[key := img]> (_cache self); log := log self |}).

(** [generate_background].  [run_pipeline] is the diffusion call followed
    by the conversion to a BGR array: it returns the array or raises. *)
Definition generate_background (run_pipeline : cache_key -> result ndarray)
    (prompt negative_prompt : string) (width height steps : Z)
    (guidance_scale : Qc) (seed : option Z) : M SDXLGenerator ndarray :=
  fun self =>
    if negb (is_available self) then
      (Raise (RuntimeError "SDXL pipeline not available"), self)
    else
      try_except
        (let cache_key :=
           (prompt, negative_prompt, width, height, steps, guidance_scale,
            seed) in
         fun self =>
           match _cache self !! cache_key with
           | Some cached =>
               (log_info (log_cache_hit cache_key) ;; ret cached) self
           | None =>
               (log_info (log_generating prompt width height steps) ;;
                do bgr_image <- lift (run_pipeline cache_key);
                cache_store cache_key bgr_image ;;
                log_info log_complete ;;
                ret bgr_image) self
           end)
        (fun e => log_info (log_failed e) ;; raise e)
        self.

(** [cleanup] *)
Definition cleanup (self : SDXLGenerator) : SDXLGenerator :=
  {| pipeline_loaded := false; _cache := _cache self; log := log self |}.

(** One call of [generate_background] with its arguments. *)
Record request : Type := {
  rq_pipeline : cache_key -> result ndarray;
  rq_key : cache_key
}.

Definition call (r : request) : M SDXLGenerator ndarray :=
  let '(prompt, negative_prompt, width, height, steps, guidance_scale,
        seed) := rq_key r in
  generate_background (rq_pipeline r) prompt negative_prompt width height
    steps guidance_scale seed.

Fixpoint call_all (rs : list request) (self : SDXLGenerator)
  : SDXLGenerator :=
  match rs with
  | [] => self
  | r :: rest => call_all rest (snd (call r self))
  end.

(** The lines a call has logged (oldest first), given the generator
    before and after it, and whether they report a cache hit. *)
Definition logged (before after : SDXLGenerator) : list log_line :=
  rev (take (length (log after) - length (log before)) (log after)).

Definition is_cache_hit_line (l : log_line) : bool :=
  match l with
  | log_cache_hit _ => true
  | _ => false
  end.

Definition cache_hit (before after : SDXLGenerator) : bool :=
  existsb is_cache_hit_line (logged before after).

End Generate.

(** ** background-service/src/runway_adapter.py *)

Module Runway.

(** The names [runway_adapter.py] binds at module level. *)
Definition module_names : list string :=
  ["requests"; "time"; "base64"; "io"; "np"; "cv2"; "Image"; "Optional";
   "Dict"; "Any"; "log"; "settings"; "RunwayAdapter"; "_runway_adapter";
   "get_runway_adapter"; "generate_background_runway"].

(** The decoded body of a task-status response. *)
Record task : Type := {
  status : option string;
  failure_reason : option string;
  output_image : option string
}.

(** What one [requests.get] does: it answers or raises
    [requests.RequestException]. *)
Inductive reply : Type :=
| http (status_code : Z) (body : task)
| request_exception (msg : string).

(** The [i]-th request of a poll: how long it takes and its reply. *)
Record exchange : Type := {
  latency : Q;
  answer : reply
}.

(** The clock [time.time()], the number of requests sent and the sleeps
    made (latest first). *)
Record poll_state : Type := {
  now : Q;
  sent : nat;
  slept : list Q
}.

Definition after_request (ex : exchange) (st : poll_state) : poll_state :=
  {| now := (now st + latency ex)%Q; sent := S (sent st);
     slept := slept st |}.

(** [time.sleep(d)] *)
Definition sleep (d : Q) (st : poll_state) : poll_state :=
  {| now := (now st + d)%Q; sent := sent st; slept := d :: slept st |}.

Inductive iteration : Type :=
| continue (st : poll_state)
| stop (r : result task) (st : poll_state).

Definition timeout_error : exn :=
  TimeoutError "Task did not complete within max_wait_time seconds".

(** One evaluation of the [while] condition followed, when it holds, by
    one execution of the loop body. *)
Definition poll_iteration (network : nat -> exchange) (start_time : Q)
    (max_wait_time : Z) (st : poll_state) : iteration :=
  if Qltb (now st - start_time) (inject_Z max_wait_time) then
    let ex := network (sent st) in
    let st := after_request ex st in
    match answer ex with
    | request_exception _ => continue (sleep 5 st)
    | http status_code result =>
        if negb (status_code =? 200) then
          stop (Raise (RuntimeError "Failed to poll task")) st
        else
          match status result with
          | Some s =>
              if String.eqb s "SUCCEEDED" then stop (Ok result) st
              else if String.eqb s "FAILED" then
                stop (Raise (RuntimeError
                               ("Runway task failed: " ++
                                default "Unknown error"
                                  (failure_reason result)))) st
              else if String.eqb s "PENDING" || String.eqb s "RUNNING" then
                continue (sleep 2 st)
              else continue (sleep 2 st)
          | None => continue (sleep 2 st)
          end
    end
  else stop (Raise timeout_error) st.

(** The [while] loop, unrolled at most [fuel] times. *)
Fixpoint poll_loop (fuel : nat) (network : nat -> exchange)
    (start_time : Q) (max_wait_time : Z) (st : poll_state)
  : option (result task * poll_state) :=
  match fuel with
  | O => None
  | S fuel =>
      match poll_iteration network start_time max_wait_time st with
      | stop r st => Some (r, st)
      | continue st => poll_loop fuel network start_time max_wait_time st
      end
  end.

(** [_poll_task_status]: [start_time] is the clock at entry. *)
Definition _poll_task_status (fuel : nat) (network : nat -> exchange)
    (max_wait_time : Z) (st : poll_state)
  : option (result task * poll_state) :=
  poll_loop fuel network (now st) max_wait_time st.

(** Iterations always sufficient for a budget of [max_wait_time] seconds. *)
Definition enough_fuel (max_wait_time : Z) : nat :=
  S (S (Z.to_nat max_wait_time)).

(** A reply after which the loop goes on polling. *)
Definition keeps_polling (r : reply) : bool :=
  match r with
  | request_exception _ => true
  | http status_code result =>
      (status_code =? 200) &&
      match status result with
      | Some s => negb (String.eqb s "SUCCEEDED" || String.eqb s "FAILED")
      | None => true
      end
  end.

End Runway.

(** ** background-service/src/models.py and main.py *)

Module Service.
Import Generate.

Inductive BGEngine : Type := SDXL | RUNWAY.

(** [models.ProcessingResponse] *)
Record ProcessingResponse : Type := {
  success : bool;
  message : string;
  out_png : option string;
  out_jpg : option string;
  mask_path : option string;
  meta : list (string * string);
  processing_time : option Q;
  engine_used : option string
}.

(** [ProcessingResponse(success=..., output_path=..., message=...)] as
    [main.py] builds it: [output_path] is not a field of the model and is
    dropped; the other fields take their defaults. *)
Definition response (success : bool) (output_path message : string)
  : ProcessingResponse :=
  {| success := success; message := message;
     out_png := None; out_jpg := None; mask_path := None;
     meta := []; processing_time := None; engine_used := None |}.

(** The module-level token bucket of [main.py]. *)
Record bucket : Type := {
  BG_REQS_PER_MIN : Z;
  _bucket_tokens : Z;
  _bucket_last : Q
}.

Definition _consume_token (now : Q) (b : bucket) : bool * bucket :=
  let elapsed := (now - _bucket_last b)%Q in
  let refill :=
    Py.int (elapsed * (inject_Z (BG_REQS_PER_MIN b) / 60))%Q in
  let b :=
    if 0 <? refill then
      {| BG_REQS_PER_MIN := BG_REQS_PER_MIN b;
         _bucket_tokens :=
           Z.min (BG_REQS_PER_MIN b) (_bucket_tokens b + refill);
         _bucket_last := now |}
    else b in
  if 0 <? _bucket_tokens b then
    (true, {| BG_REQS_PER_MIN := BG_REQS_PER_MIN b;
              _bucket_tokens := _bucket_tokens b - 1;
              _bucket_last := _bucket_last b |})
  else (false, b).

(** What a request does that can be observed besides its response, in
    the order it happens. *)
Inductive event : Type :=
| remote_called
| local_called
| warned_runway_failed (e : exn)
| logged_falling_back.

Record server : Type := {
  limiter : bucket;
  events : list event
}.

Definition emit (ev : event) : M server unit :=
  fun s => (Ok tt, {| limiter := limiter s; events := events s ++ [ev] |}).

Definition consume (now : Q) : M server bool :=
  fun s =>
    let '(ok, b) := _consume_token now (limiter s) in
    (Ok ok, {| limiter := b; events := events s |}).

(** [settings.bg_engine] and the environment variables read per request;
    [RUNWAY_TIMEOUT_MS] is the value of [int(os.getenv(...))]. *)
Record settings : Type := {
  bg_engine : BGEngine;
  ALLOW_4K : option string;
  RUNWAY_TIMEOUT_MS : result Z;
  BG_FALLBACK_LOCAL : option string
}.

(** [os.getenv(name, '0') == '1'] *)
Definition flag (v : option string) : bool :=
  String.eqb (default "0" v) "1".

(** The form fields the handler inspects and the collaborators of one
    request: decoding the upload gives [(height, width)]; [remote] is the
    remote generation with the reload of its output file; [local] is
    [generate_background_sdxl]; [finish] resizes, composites and saves,
    returning the output path. *)
Record request : Type := {
  steps : Z;
  guidance_scale : Q;
  load_image : result (Z * Z);
  masking : result unit;
  remote : result ndarray;
  local : result ndarray;
  finish : ndarray -> result string
}.

(** [from module import name] against the names the module binds. *)
Definition import_from (names : list string) (name : string)
  : M server unit :=
  if bool_decide (name ∈ names) then ret tt else raise (ImportError name).

Definition is_runway (e : BGEngine) : bool :=
  match e with RUNWAY => true | SDXL => false end.

Definition is_sdxl (e : BGEngine) : bool :=
  match e with SDXL => true | RUNWAY => false end.

(** Lines 246-284 of [replace_background]: the choice of the engine.
    [adapter] lists the names [runway_adapter] binds. *)
Definition generate (adapter : list string) (cfg : settings)
    (rq : request) (max_dim : Z) : M server ndarray :=
  let engine := bg_engine cfg in
  let allow_4k := flag (ALLOW_4K cfg) in
  do runway_timeout_ms <- lift (RUNWAY_TIMEOUT_MS cfg);
  let fallback_local := flag (BG_FALLBACK_LOCAL cfg) in
  let generated_bg : option ndarray := None in
  do chosen <-
    (if is_runway engine then
       try_except
         ((if (4096 <? max_dim) && negb allow_4k then
             raise (HTTPException 400
               "4K+ resolution not allowed in Runway mode unless ALLOW_4K=1")
           else ret tt) ;;
          import_from adapter "generate_background_remote" ;;
          emit remote_called ;;
          do bg <- lift (remote rq);
          ret (Some bg, engine))
         (fun e =>
            emit (warned_runway_failed e) ;;
            if fallback_local then
              emit logged_falling_back ;; ret (generated_bg, SDXL)
            else
              raise (HTTPException 500
                       ("Runway generation failed: " ++ str e)))
     else ret (generated_bg, engine));
  let '(generated_bg, engine) := chosen in
  do generated_bg <-
    (if is_sdxl engine then
       (if (4096 <? max_dim) && negb allow_4k then
          raise (HTTPException 400
            "4K+ resolution not allowed in SDXL mode unless ALLOW_4K=1")
        else ret tt) ;;
       emit local_called ;;
       do bg <- lift (local rq);
       ret (Some bg)
     else ret generated_bg);
  match generated_bg with
  | None =>
      raise (HTTPException 500 "Background generation failed (no image)")
  | Some bg => ret bg
  end.

(** The two [except] clauses that close the handler: an [HTTPException]
    is re-raised, anything else becomes a 500. *)
Definition as_http (e : exn) : exn :=
  match e with
  | HTTPException _ _ => e
  | _ => HTTPException 500 ("Processing failed: " ++ str e)
  end.

(** The handler of [POST /background/replace]; a raised [HTTPException]
    is the error response with that status code. *)
Definition replace_background_with (adapter : list string)
    (cfg : settings) (rq : request) (now : Q)
  : M server ProcessingResponse :=
  do admitted <- consume now;
  if negb admitted then
    raise (HTTPException 429 "Rate limit exceeded. Try again later.")
  else
    try_except
      ((if (steps rq <? 1) || (100 <? steps rq) then
          raise (HTTPException 400 "Steps must be between 1 and 100")
        else ret tt) ;;
       (if Qltb (guidance_scale rq) 1 || Qltb 20 (guidance_scale rq) then
          raise (HTTPException 400
                   "Guidance scale must be between 1.0 and 20.0")
        else ret tt) ;;
       do shape <- lift (load_image rq);
       lift (masking rq) ;;
       let '(target_height, target_width) := shape in
       let max_dim := Z.max target_width target_height in
       do generated_bg <- generate adapter cfg rq max_dim;
       do output_path <- lift (finish rq generated_bg);
       ret (response true output_path
              "Background replacement completed successfully"))
      (fun e => raise (as_http e)).

Definition replace_background : settings -> request -> Q ->
                                M server ProcessingResponse :=
  replace_background_with Runway.module_names.


(** No remote call after a local call. *)
Definition is_remote_call (ev : event) : bool :=
  match ev with remote_called => true | _ => false end.

Fixpoint one_way (evs : list event) : bool :=
  match evs with
  | [] => true
  | local_called :: rest => negb (existsb is_remote_call rest) && one_way rest
  | _ :: rest => one_way rest
  end.

(** Whether the request gets as far as choosing an engine, and the
    larger side of its image. *)
Definition reaches_generation (cfg : settings) (rq : request) (now : Q)
    (s : server) : bool :=
  fst (_consume_token now (limiter s))
  && negb ((steps rq <? 1) || (100 <? steps rq))
  && negb (Qltb (guidance_scale rq) 1 || Qltb 20 (guidance_scale rq))
  && is_ok (load_image rq) && is_ok (masking rq)
  && is_ok (RUNWAY_TIMEOUT_MS cfg).

Definition max_dim (rq : request) : Z :=
  match load_image rq with
  | Ok (target_height, target_width) => Z.max target_width target_height
  | Raise _ => 0
  end.

Definition too_large (cfg : settings) (rq : request) : bool :=
  (4096 <? max_dim rq) && negb (flag (ALLOW_4K cfg)).

(** The response of a request whose background [bg] was generated. *)
Definition completed (rq : request) (bg : result ndarray)
  : result ProcessingResponse :=
  match bg with
  | Raise e => Raise (as_http e)
  | Ok bg =>
      match finish rq bg with
      | Ok output_path =>
          Ok (response true output_path
                "Background replacement completed successfully")
      | Raise e => Raise (as_http e)
      end
  end.


(** The server once the request has taken its token. *)
Definition admitted (now : Q) (s : server) : server :=
  {| limiter := snd (_consume_token now (limiter s)); events := events s |}.

(** *** Sample inputs *)

Definition runway_with_fallback : settings :=
  {| bg_engine := RUNWAY; ALLOW_4K := None;
     RUNWAY_TIMEOUT_MS := Ok 180000; BG_FALLBACK_LOCAL := Some "1" |}.

Definition runway_only : settings :=
  {| bg_engine := RUNWAY; ALLOW_4K := None;
     RUNWAY_TIMEOUT_MS := Ok 180000; BG_FALLBACK_LOCAL := None |}.

Definition sdxl_only : settings :=
  {| bg_engine := SDXL; ALLOW_4K := None;
     RUNWAY_TIMEOUT_MS := Ok 180000; BG_FALLBACK_LOCAL := None |}.

Definition portrait : request :=
  {| steps := 20; guidance_scale := 15 # 2;
     load_image := Ok (1024, 768); masking := Ok tt;
     remote := Ok [9; 9; 9]%N; local := Ok [4; 5; 6]%N;
     finish := fun _ => Ok "media/backgrounds/portrait_replaced.jpg" |}.

Definition billboard : request :=
  {| steps := 20; guidance_scale := 15 # 2;
     load_image := Ok (5000, 5000); masking := Ok tt;
     remote := Ok [9; 9; 9]%N; local := Ok [4; 5; 6]%N;
     finish := fun _ => Ok "media/backgrounds/billboard_replaced.jpg" |}.

Definition idle : server :=
  {| limiter := {| BG_REQS_PER_MIN := 10; _bucket_tokens := 10;
                   _bucket_last := 0 |};
     events := [] |}.

End Service.

(** ** Runs of the two token buckets *)

Module Buckets.

(** How many requests a run of [TokenBucketLimiter.acquire] granted. *)
Fixpoint granted (rs : list (result bool)) : Z :=
  match rs with
  | [] => 0
  | Ok true :: rest => 1 + granted rest
  | _ :: rest => granted rest
  end.



End Buckets.

(** ** Runs of the duplicate check *)

Module CurationRuns.
Import IngestConfig Curation.

(** [check_duplicate] called on one hash after the other. *)
Fixpoint check_all (cfg : MediaIngestConfig) (hs : list PerceptualHash)
    (seen : gset PerceptualHash) : list bool * gset PerceptualHash :=
  match hs with
  | [] => ([], seen)
  | h :: rest =>
      let '(dup, seen1) := check_duplicate cfg h seen in
      let '(dups, seen2) := check_all cfg rest seen1 in
      (dup :: dups, seen2)
  end.

(** No two different hashes of the set are duplicates of each other. *)
Definition separated (cfg : MediaIngestConfig)
    (seen : gset PerceptualHash) : Prop :=
  forall a b, a ∈ seen -> b ∈ seen -> a <> b ->
              is_duplicate cfg a b None = false.

(** The configuration with another duplicate threshold. *)
Definition with_threshold (t : Z) (cfg : MediaIngestConfig)
  : MediaIngestConfig :=
  {| concurrency := concurrency cfg;
     aesthetic_threshold := aesthetic_threshold cfg;
     sharpness_threshold := sharpness_threshold cfg;
     duplicate_hamming_threshold := t;
     watermark_path := watermark_path cfg;
     face_blur_enabled := face_blur_enabled cfg;
     enhancement_backend := enhancement_backend cfg;
     enhancement_scale := enhancement_scale cfg |}.

End CurationRuns.

(** ** More sample worlds for the pipeline *)

Module PipelineSamples.
Import Pipeline.

(** [studio] with a disk on which no image can be saved. *)
Definition disk_full : world :=
  {| read_bytes := read_bytes studio;
     select_error := None;
     insert_error := None;
     image_open := image_open studio;
     imread := imread studio;
     perceptual_hash := perceptual_hash studio;
     score_image := score_image studio;
     process_image := process_image studio;
     apply_watermark := apply_watermark studio;
     cvtColor := cvtColor studio;
     blur_faces := blur_faces studio;
     fromarray := fromarray studio;
     output_path_for := output_path_for studio;
     save_error := fun _ => Some (OSError "No space left on device");
     json_error := fun _ => None;
     now_iso := now_iso studio |}.


Definition door_out : Path :=
  {| parent := "/media/curated/2025/01/door"; stem := "door";
     suffix := ".jpg" |}.

End PipelineSamples.

(** ** media_ingest/cli.py *)

Module Cli.
Import Pipeline.

(** [str.lower] on a suffix; only the letters A-Z have a lower case among
    the characters that can make up one of the suffixes compared with. *)
Definition lower_char (c : Ascii.ascii) : Ascii.ascii :=
  let n := Ascii.nat_of_ascii c in
  if (65 <=? n)%nat && (n <=? 90)%nat then Ascii.ascii_of_nat (n + 32) else c.

Fixpoint lower (s : string) : string :=
  match s with
  | EmptyString => EmptyString
  | String c rest => String (lower_char c) (lower rest)
  end.

Definition image_suffixes : list string :=
  [".jpg"; ".jpeg"; ".png"; ".gif"; ".bmp"].

(** [Path(f).suffix.lower() in {'.jpg', '.jpeg', '.png', '.gif', '.bmp'}] *)
Definition is_image_file (f : Path) : bool :=
  bool_decide (lower (suffix f) ∈ image_suffixes).

Section Commands.

Variable sha256_hexdigest : list N -> string.
Variable w : world.
Variable config : IngestConfig.MediaIngestConfig.

(** [cmd_reprocess].  [globbed] is what [glob.glob] returns for the
    patterns, in order; the result is the pair of numbers the command
    prints ("Found n files to reprocess", "Reprocessed m files") with the
    paths behind the second. *)
Definition cmd_reprocess (globbed : list Path) (source : string)
  : M (nat * list Path) :=
  let image_files := List.filter is_image_file globbed in
  do processed <-
    process_batch sha256_hexdigest w config image_files source None;
  ret (length image_files, processed).

End Commands.

End Cli.

(** ** pipeline.py: the unique file name of [generate_output_path] *)

Module OutputPath.

(** [f"{stem}_{counter}{ext}"] *)
Definition numbered (stem ext : string) (counter : nat) : string :=
  stem +:+ "_" +:+ pretty counter +:+ ext.

(** The loop [while base_path.exists(): ...] within [output_dir], whose
    existing names are [taken]; the condition is evaluated at most [fuel]
    times. *)
Fixpoint find_unique (fuel : nat) (taken : gset string) (stem ext : string)
    (base_path : string) (counter : nat) : option string :=
  match fuel with
  | O => None
  | S fuel =>
      if bool_decide (base_path ∈ taken) then
        find_unique fuel taken stem ext (numbered stem ext counter)
          (S counter)
      else Some base_path
  end.

(** Lines 90-98 of [generate_output_path]: the name chosen in
    [output_dir]. *)
Definition unique_filename (fuel : nat) (taken : gset string)
    (stem ext : string) : option string :=
  let base_path := stem +:+ ext in
  let counter := 1%nat in
  find_unique fuel taken stem ext base_path counter.

End OutputPath.

(** ** generate.py: the module-level generator *)

Module GenerateModule.
Import Generate.

(** What [_load_pipeline] logs. *)
Inductive load_event : Type :=
| load_started
| load_succeeded
| load_failed (e : exn).

(** The global [_sdxl_generator], the constructions of [SDXLGenerator]
    that have completed, and the loading log (latest first). *)
Record module_state : Type := {
  _sdxl_generator : option SDXLGenerator;
  constructed : nat;
  load_log : list load_event
}.

Definition unloaded : module_state :=
  {| _sdxl_generator := None; constructed := 0; load_log := [] |}.

(** [SDXLGenerator()]: [__init__] runs [_load_pipeline], which re-raises
    what [from_pretrained] raises, and then sets the empty cache. *)
Definition new_generator (from_pretrained : result unit)
  : M module_state SDXLGenerator :=
  fun m =>
    match from_pretrained with
    | Ok _ =>
        (Ok {| pipeline_loaded := true; _cache := ∅; log := [] |},
         {| _sdxl_generator := _sdxl_generator m;
            constructed := S (constructed m);
            load_log := load_succeeded :: load_started :: load_log m |})
    | Raise e =>
        (Raise e,
         {| _sdxl_generator := _sdxl_generator m;
            constructed := constructed m;
            load_log := load_failed e :: load_started :: load_log m |})
    end.

Definition set_generator (g : SDXLGenerator) : M module_state unit :=
  fun m =>
    (Ok tt, {| _sdxl_generator := Some g; constructed := constructed m;
               load_log := load_log m |}).

(** [get_sdxl_generator] *)
Definition get_sdxl_generator (from_pretrained : result unit)
  : M module_state SDXLGenerator :=
  fun m =>
    match _sdxl_generator m with
    | None =>
        (do g <- new_generator from_pretrained;
         set_generator g ;; ret g) m
    | Some g => (Ok g, m)
    end.

(** [generate_background_sdxl]: the generator is the one object the global
    refers to, so what the call does to it is seen through the global. *)
Definition generate_background_sdxl (from_pretrained : result unit)
    (run_pipeline : cache_key -> result ndarray)
    (prompt negative_prompt : string) (width height steps : Z)
    (guidance_scale : Qc) (seed : option Z) : M module_state ndarray :=
  do generator <- get_sdxl_generator from_pretrained;
  fun m =>
    let '(r, generator) :=
      generate_background run_pipeline prompt negative_prompt width height
        steps guidance_scale seed generator in
    (r, {| _sdxl_generator := Some generator; constructed := constructed m;
           load_log := load_log m |}).

(** One call of [generate_background_sdxl] with what the model loader and
    the pipeline would do during it. *)
Record sdxl_call : Type := {
  sc_from_pretrained : result unit;
  sc_request : request
}.

Definition run_call (c : sdxl_call) : M module_state ndarray :=
  let '(prompt, negative_prompt, width, height, steps, guidance_scale,
        seed) := rq_key (sc_request c) in
  generate_background_sdxl (sc_from_pretrained c)
    (rq_pipeline (sc_request c)) prompt negative_prompt width height steps
    guidance_scale seed.

Fixpoint run_calls (cs : list sdxl_call) (m : module_state) : module_state :=
  match cs with
  | [] => m
  | c :: rest => run_calls rest (snd (run_call c m))
  end.

End GenerateModule.

(** ** main.py: what a request made the engines do *)

Module ServiceRuns.
Import Service.

(** An event that is a call of an engine. *)
Definition is_engine_call (ev : event) : bool :=
  match ev with
  | remote_called | local_called => true
  | _ => false
  end.

Definition is_local_call (ev : event) : bool :=
  match ev with local_called => true | _ => false end.

(** The status code of the error an oversize image is answered with. *)
Definition oversize_status (cfg : settings) : Z :=
  if is_runway (bg_engine cfg) && negb (flag (BG_FALLBACK_LOCAL cfg))
  then 500 else 400.

End ServiceRuns.

(** ** background_client.py: requests with retries *)

Module BackgroundClient.

Record BackgroundClientConfig : Type := {
  base_url : string;
  timeout : Z;
  retry_attempts : Z;
  retry_delay : Q
}.

Definition default_config : BackgroundClientConfig :=
  {| base_url := "http://localhost:8089"; timeout := 300;
     retry_attempts := 3; retry_delay := 1 |}.

Record BackgroundClientError : Type := {
  message : string;
  code : string
}.

(** The decoded body of a response: [success] is the truth value of
    [result.get("success")]. *)
Record json_result : Type := {
  success : bool;
  error : option string;
  output_path : option string
}.

(** What one [requests.post] does: it answers, [json] being the decoded
    body or what decoding and reading it raises, or it raises; the
    exceptions are told apart by the [except] clause that catches
    them. *)
Inductive post_reply : Type :=
| response (status_code : Z) (text : string) (json : result json_result)
| Timeout
| ConnectionError
| other_exception (e : exn).

(** How a call of [_make_request] ends; [returned_None] is falling off
    the end of the function, [escaped] an exception raised outside the
    [try] statement. *)
Inductive outcome : Type :=
| returned (r : json_result)
| returned_None
| raised (e : BackgroundClientError)
| escaped (e : exn).

(** The requests posted so far and the sleeps made, oldest first. *)
Record client_state : Type := {
  posts : nat;
  sleeps : list Q
}.

(** What the [try] statement of one attempt comes to. *)
Inductive handled : Type :=
| leaves (out : outcome)
| falls_through.

(** [retry_delay * (2 ** attempt)] *)
Definition backoff (cfg : BackgroundClientConfig) (attempt : Z) : Q :=
  (retry_delay cfg * inject_Z (2 ^ attempt))%Q.

Definition try_post (cfg : BackgroundClientConfig) (reply : post_reply)
    (attempt : Z) : handled :=
  let unexpected (e : exn) :=
    if attempt =? retry_attempts cfg - 1 then
      leaves (raised {| message := "Unexpected error: " +:+ str e;
                        code := "UNKNOWN_ERROR" |})
    else falls_through in
  match reply with
  | response status_code text json =>
      if status_code =? 200 then
        match json with
        | Ok result =>
            if success result then leaves (returned result)
            else
              leaves (raised {| message :=
                                  default "Unknown error" (error result);
                                code := "PROCESSING_FAILED" |})
        | Raise e => unexpected e
        end
      else
        leaves (raised {| message :=
                            "HTTP " +:+ pretty status_code +:+ ": " +:+ text;
                          code := "HTTP_ERROR" |})
  | Timeout =>
      if attempt =? retry_attempts cfg - 1 then
        leaves (raised {| message := "Request timed out";
                          code := "TIMEOUT" |})
      else falls_through
  | ConnectionError =>
      if attempt =? retry_attempts cfg - 1 then
        leaves (raised {| message := "Connection failed";
                          code := "CONNECTION_ERROR" |})
      else falls_through
  | other_exception e => unexpected e
  end.

(** The body of the [for] loop over the attempts left; [time.sleep]
    raises on a negative length. *)
Fixpoint attempts (cfg : BackgroundClientConfig)
    (network : nat -> post_reply) (range : list Z) (st : client_state)
  : outcome * client_state :=
  match range with
  | [] => (returned_None, st)
  | attempt :: rest =>
      let reply := network (posts st) in
      let st := {| posts := S (posts st); sleeps := sleeps st |} in
      match try_post cfg reply attempt with
      | leaves out => (out, st)
      | falls_through =>
          if attempt <? retry_attempts cfg - 1 then
            if Qltb (backoff cfg attempt) 0 then
              (escaped (ValueError "sleep length must be non-negative"), st)
            else
              attempts cfg network rest
                {| posts := posts st;
                   sleeps := sleeps st ++ [backoff cfg attempt] |}
          else attempts cfg network rest st
      end
  end.

(** [range(n)] *)
Definition range (n : Z) : list Z :=
  map Z.of_nat (seq 0 (Z.to_nat n)).

(** [_make_request]; [network i] is what the [i]-th post does. *)
Definition _make_request (cfg : BackgroundClientConfig)
    (network : nat -> post_reply) (st : client_state)
  : outcome * client_state :=
  attempts cfg network (range (retry_attempts cfg)) st.

(** A reply that ends the call whatever the attempt: an HTTP response,
    unless its status is 200 and its body cannot be decoded. *)
Definition ends_call (reply : post_reply) : bool :=
  match reply with
  | response status_code _ json => negb (status_code =? 200) || is_ok json
  | _ => false
  end.

(** The errors raised for a failure of the transport. *)
Definition gave_up (e : BackgroundClientError) : bool :=
  String.eqb (code e) "TIMEOUT" || String.eqb (code e) "CONNECTION_ERROR"
  || String.eqb (code e) "UNKNOWN_ERROR".

(** The sleeps after the first [n] failed attempts. *)
Definition backoffs (cfg : BackgroundClientConfig) (first n : nat)
  : list Q :=
  map (fun k => backoff cfg (Z.of_nat k)) (seq first n).

Definition fresh : client_state := {| posts := 0; sleeps := [] |}.

End BackgroundClient.

(** ** main.py: the cleanup handler and runs of requests *)

Module Endpoints.
Import Generate Service.










End Endpoints.

(** ** pipeline.py: the directory name of an output file *)

Module Slug.
Import Stdlib.Strings.Ascii.

Definition chars (s : string) : list Ascii.ascii := String.list_ascii_of_string s.

Definition between (lo hi : N) (c : Ascii.ascii) : bool :=
  (lo <=? Ascii.N_of_ascii c)%N && (Ascii.N_of_ascii c <=? hi)%N.

(** A character of the ASCII range; on these, the three predicates
    below are [str.isalnum], [str.isspace] and the test of the
    comprehension. *)
Definition is_ascii (c : Ascii.ascii) : bool :=
  (Ascii.N_of_ascii c <? 128)%N.

(** [c.isalnum()] *)
Definition isalnum (c : Ascii.ascii) : bool :=
  between 48 57 c || between 65 90 c || between 97 122 c.

(** [c.isspace()]: tab to carriage return, the four separators and the
    space. *)
Definition isspace (c : Ascii.ascii) : bool :=
  between 9 13 c || between 28 32 c.

(** [c.isalnum() or c in " -_"] *)
Definition kept (c : Ascii.ascii) : bool :=
  isalnum c
  || Ascii.eqb c " "%char || Ascii.eqb c "-"%char || Ascii.eqb c "_"%char.

(** [s.rstrip()] *)
Fixpoint rstrip (s : list Ascii.ascii) : list Ascii.ascii :=
  match s with
  | [] => []
  | c :: rest =>
      match rstrip rest with
      | [] => if isspace c then [] else [c]
      | stripped => c :: stripped
      end
  end.

(** Lines 81-84 of [generate_output_path]. *)
Definition slug (stem : string) : string :=
  let slug := rstrip (List.filter kept (chars stem)) in
  match slug with
  | [] => "image"
  | _ => String.string_of_list_ascii slug
  end.

End Slug.

(** ** runway_adapter.py: one generation *)

Module RunwayAdapter.
Import Runway.

(** [RunwayAdapter]: [api_key] is [settings.runway_api_key]. *)
Record adapter : Type := {
  api_key : option string
}.

(** [bool(s)] for an optional string. *)
Definition truthy (s : option string) : bool :=
  match s with
  | Some s => negb (String.eqb s "")
  | None => false
  end.

Definition is_available (self : adapter) : bool := truthy (api_key self).

(** What the [requests.post] of the submission does: it answers with a
    status and, in the body, possibly an [id], or the call or the
    decoding of its body raises. *)
Inductive post_reply : Type :=
| posted (status_code : Z) (id : option string)
| post_raised (e : exn).

Record submission : Type := {
  post_latency : Q;
  post_answer : post_reply
}.

(** The submissions posted and the state of the polling. *)
Record state : Type := {
  submitted : nat;
  polling : poll_state
}.

(** [_submit_generation_task]; its [except] clause logs and re-raises. *)
Definition _submit_generation_task (sub : submission) : M state string :=
  fun st =>
    let st :=
      {| submitted := S (submitted st);
         polling := {| now := (now (polling st) + post_latency sub)%Q;
                       sent := sent (polling st);
                       slept := slept (polling st) |} |} in
    match post_answer sub with
    | post_raised e => (Raise e, st)
    | posted status_code id =>
        if negb (status_code =? 200) then
          (Raise (RuntimeError "Runway API error"), st)
        else if negb (truthy id) then
          (Raise (RuntimeError "No task ID returned from Runway API"), st)
        else (Ok (default "" id), st)
    end.

(** [generate_background]: [network] answers the status requests of the
    submitted task and [decode] is [_decode_base64_to_image]; the poll
    loop is unrolled at most [fuel] times.  The [except] clause logs and
    re-raises. *)
Definition generate_background (fuel : nat) (self : adapter)
    (sub : submission) (network : nat -> exchange)
    (decode : string -> result (list N)) (max_wait_time : Z) (st : state)
  : option (result (list N) * state) :=
  if negb (is_available self) then
    Some (Raise (RuntimeError "Runway API key not configured"), st)
  else
    match _submit_generation_task sub st with
    | (Raise e, st) => Some (Raise e, st)
    | (Ok task_id, st) =>
        match _poll_task_status fuel network max_wait_time (polling st) with
        | None => None
        | Some (r, p) =>
            let st := {| submitted := submitted st; polling := p |} in
            match r with
            | Raise e => Some (Raise e, st)
            | Ok result =>
                let image_data := output_image result in
                if negb (truthy image_data) then
                  Some (Raise (RuntimeError
                                 "No image data in Runway response"), st)
                else Some (decode (default "" image_data), st)
            end
        end
    end.


End RunwayAdapter.

(** ** main.py: shutdown *)

Module Lifecycle.
Import Generate GenerateModule.

(** [shutdown_event]: with the SDXL engine configured, the global
    generator is fetched -- which builds it when there is none -- and
    cleaned up; whatever that raises is logged as a warning and
    dropped. *)
Definition shutdown_event (bg_engine : Service.BGEngine)
    (from_pretrained : result unit) (m : module_state) : module_state :=
  if Service.is_sdxl bg_engine then
    match get_sdxl_generator from_pretrained m with
    | (Ok generator, m) =>
        {| _sdxl_generator := Some (cleanup generator);
           constructed := constructed m; load_log := load_log m |}
    | (Raise e, m) => m
    end
  else m.

End Lifecycle.

(** * Properties *)

(** Split on the innermost scrutinee of the goal: the outcome of the next
    stage that decides the control flow. *)
Ltac case_head :=
  match goal with
  | |- context [match ?x with _ => _ end] =>
      lazymatch x with
      | context [match _ with _ => _ end] => fail
      | _ => destruct x eqn:?
      end
  end.

(** ** The token bucket of limits.py *)

Section LimitsFacts.
Import Limits.







End LimitsFacts.

(** C2, as stated, fails: an oversize rejection that comes a minute after
    the last refill finds an empty bucket of capacity 10 and leaves 10
    tokens in it, because [acquire] refills before it checks the size. *)
Lemma acquire_oversize_tokens_differ :
  let self := {| Limits.capacity := 10; Limits.tokens := 0;
                 Limits.allow_4k := false; Limits.last_refill := 0 |} in
  fst (Limits.acquire 60 (5000, 5000) self) =
    Raise (OversizeError "Requested size exceeds 4K and ALLOW_4K is not set")
  /\ Limits.tokens (snd (Limits.acquire 60 (5000, 5000) self)) = 10
  /\ Limits.tokens (snd (Limits.acquire 60 (5000, 5000) self))
     <> Limits.tokens self.
Proof. vm_compute. repeat split; discriminate. Qed.

(** C2 (amended): for every limiter state, clock reading and request whose
    width or height exceeds 4096 while [allow_4k] is unset, [acquire] raises
    [OversizeError] whatever the number of tokens (the size is checked
    before the tokens) and consumes no token: the limiter is left exactly
    as the refill step leaves it, so the token count is the refilled count
    and equals the count before the call whenever no whole token has
    accrued. *)
Theorem acquire_oversize_consumes_no_token
    (now : Q) (size : Z * Z) (self : Limits.TokenBucketLimiter) :
  Limits.oversize size = true ->
  Limits.allow_4k self = false ->
  Limits.acquire now size self =
    (Raise (OversizeError "Requested size exceeds 4K and ALLOW_4K is not set"),
     Limits._refill now self)
  /\ Limits.tokens (Limits._refill now self) =
       (if 0 <? Limits.refill_amount now self
        then Z.min (Limits.capacity self)
               (Limits.tokens self + Limits.refill_amount now self)
        else Limits.tokens self)
  /\ (Limits.refill_amount now self <= 0 ->
      Limits.tokens (snd (Limits.acquire now size self)) = Limits.tokens self).
Proof.
  intros Hover Hallow.
  assert (Hallow' : Limits.allow_4k (Limits._refill now self) = false).
  { unfold Limits._refill. destruct (0 <? _); simpl; exact Hallow. }
  assert (Hacq : Limits.acquire now size self =
    (Raise (OversizeError "Requested size exceeds 4K and ALLOW_4K is not set"),
     Limits._refill now self)).
  { unfold Limits.acquire. rewrite Hover, Hallow'. reflexivity. }
  split; [exact Hacq|]. split.
  - unfold Limits._refill. destruct (0 <? _); reflexivity.
  - intros Hno. rewrite Hacq. simpl. unfold Limits._refill.
    assert (H : (0 <? Limits.refill_amount now self) = false) by (apply Z.ltb_ge; lia).
    rewrite H. reflexivity.
Qed.

Lemma acquire_oversize_consumes_no_token_witness :
  let self := {| Limits.capacity := 10; Limits.tokens := 3;
                 Limits.allow_4k := false; Limits.last_refill := 7 |} in
  Limits.acquire 7 (8192, 8192) self =
    (Raise (OversizeError "Requested size exceeds 4K and ALLOW_4K is not set"),
     Limits._refill 7 self)
  /\ Limits.tokens (snd (Limits.acquire 7 (8192, 8192) self)) = 3.
Proof.
  intros self.
  destruct (acquire_oversize_consumes_no_token 7 (8192, 8192) self
              eq_refl eq_refl) as (Hacq & _ & Hsame).
  split; [exact Hacq|].
  rewrite Hsame; [reflexivity | vm_compute; discriminate].
Defined.



(** ** The curation engine of curation.py *)

Section CurationFacts.
Import IngestConfig Curation.

Lemma Qltb_lt (a b : Q) : Qltb a b = true <-> (a < b)%Q.
Proof.
  unfold Qltb. rewrite negb_true_iff. split.
  - intros H. apply Qnot_le_lt. intros Hle.
    apply Qle_bool_iff in Hle. congruence.
  - intros H. destruct (Qle_bool b a) eqn:E; [|reflexivity].
    apply Qle_bool_iff in E. exfalso. apply (Qlt_not_le _ _ H E).
Qed.

Lemma scores_dict_aesthetic (s : ScoreSet) :
  scores_dict s !! "aesthetic" = Some (aesthetic s).
Proof.
  unfold scores_dict.
  rewrite !lookup_insert_ne by discriminate. apply lookup_insert_eq.
Qed.

Lemma scores_dict_sharpness (s : ScoreSet) :
  scores_dict s !! "sharpness" = Some (sharpness s).
Proof.
  unfold scores_dict.
  rewrite !lookup_insert_ne by discriminate. apply lookup_insert_eq.
Qed.

Lemma scores_dict_exposure (s : ScoreSet) :
  scores_dict s !! "exposure" = Some (exposure s).
Proof.
  unfold scores_dict.
  rewrite !lookup_insert_ne by discriminate. apply lookup_insert_eq.
Qed.

Lemma should_keep_image_full (cfg : MediaIngestConfig) (s : ScoreSet) :
  should_keep_image cfg (scores_dict s) =
    Ok (Nat.eqb (length (Curation.violated cfg s)) 0, Curation.violated cfg s).
Proof.
  unfold should_keep_image, violated, get0, getitem.
  rewrite scores_dict_aesthetic, scores_dict_sharpness,
    scores_dict_exposure.
  simpl default.
  destruct (Qltb (aesthetic s) _), (Qltb (sharpness s) _),
    (Qltb (exposure s) _); reflexivity.
Qed.

Lemma is_duplicate_sym (cfg : MediaIngestConfig)
    (h1 h2 : PerceptualHash) (t : option Z) :
  is_duplicate cfg h1 h2 t = is_duplicate cfg h2 h1 t.
Proof. unfold is_duplicate. rewrite N.lxor_comm. reflexivity. Qed.

Lemma scan_seen_true (cfg : MediaIngestConfig) (h : PerceptualHash)
    (l : list PerceptualHash) :
  scan_seen cfg h l = true <->
  exists s, s ∈ l /\ is_duplicate cfg h s None = true.
Proof.
  induction l as [|x l IH]; simpl.
  - split; [discriminate|]. intros (s & Hs & _). inversion Hs.
  - destruct (is_duplicate cfg h x None) eqn:E.
    + split; [|reflexivity]. intros _. exists x. split; [left|exact E].
    + rewrite IH. split.
      * intros (s & Hs & Hd). exists s. split; [right; exact Hs|exact Hd].
      * intros (s & Hs & Hd). inversion Hs; subst; [congruence|].
        exists s. split; assumption.
Qed.

Lemma check_duplicate_hit (cfg : MediaIngestConfig) (h s : PerceptualHash)
    (seen : gset PerceptualHash) :
  s ∈ seen -> is_duplicate cfg h s None = true ->
  check_duplicate cfg h seen = (true, seen).
Proof.
  intros Hs Hd. unfold check_duplicate.
  assert (H : scan_seen cfg h (elements seen) = true).
  { apply scan_seen_true. exists s. split; [|exact Hd].
    apply elem_of_elements. exact Hs. }
  rewrite H. reflexivity.
Qed.

Lemma check_duplicate_miss (cfg : MediaIngestConfig) (h : PerceptualHash)
    (seen : gset PerceptualHash) :
  (forall s, s ∈ seen -> is_duplicate cfg h s None = false) ->
  check_duplicate cfg h seen = (false, {[h]} ∪ seen).
Proof.
  intros Hno. unfold check_duplicate.
  destruct (scan_seen cfg h (elements seen)) eqn:E; [|reflexivity].
  apply scan_seen_true in E. destruct E as (s & Hs & Hd).
  apply elem_of_elements in Hs. rewrite (Hno s Hs) in Hd. discriminate.
Qed.

End CurationFacts.

(** C8: for every score set, [should_keep_image] returns [kept = True]
    exactly when the list of reasons is empty, and the list holds one
    reason for each of: aesthetic below the configured threshold, sharpness
    below the configured threshold, exposure below the fixed floor 0.3 --
    and nothing else.  The function takes and returns no state. *)
Theorem should_keep_image_policy
    (cfg : IngestConfig.MediaIngestConfig) (s : Curation.ScoreSet) :
  exists (keep : bool) (reasons : list Curation.reason),
    Curation.should_keep_image cfg (Curation.scores_dict s) =
      Ok (keep, reasons)
    /\ (keep = true <-> reasons = [])
    /\ reasons = Curation.violated cfg s
    /\ (In (Curation.aesthetic_below (Curation.aesthetic s)
              (IngestConfig.aesthetic_threshold cfg)) reasons
        <-> (Curation.aesthetic s < IngestConfig.aesthetic_threshold cfg)%Q)
    /\ (In (Curation.sharpness_below (Curation.sharpness s)
              (IngestConfig.sharpness_threshold cfg)) reasons
        <-> (Curation.sharpness s < IngestConfig.sharpness_threshold cfg)%Q)
    /\ (In (Curation.poor_exposure (Curation.exposure s)) reasons
        <-> (Curation.exposure s < 3 # 10)%Q)
    /\ (forall r, In r reasons ->
          r = Curation.aesthetic_below (Curation.aesthetic s)
                (IngestConfig.aesthetic_threshold cfg)
          \/ r = Curation.sharpness_below (Curation.sharpness s)
                   (IngestConfig.sharpness_threshold cfg)
          \/ r = Curation.poor_exposure (Curation.exposure s)).
Proof.
  exists (Nat.eqb (length (Curation.violated cfg s)) 0), (Curation.violated cfg s).
  split; [apply should_keep_image_full|].
  split.
  { destruct (Curation.violated cfg s); simpl; split; congruence. }
  split; [reflexivity|].
  unfold Curation.violated.
  rewrite <- !Qltb_lt.
  destruct (Qltb (Curation.aesthetic s) _),
    (Qltb (Curation.sharpness s) _), (Qltb (Curation.exposure s) _);
    simpl; repeat split; intros; try reflexivity; try discriminate;
    intuition (try congruence; try discriminate).
Qed.



(** ** The ingestion pipeline of pipeline.py *)

Section PipelineFacts.
Import IngestConfig Curation Pipeline.

Lemma np_unbound : load_global "np" = raise (NameError "np").
Proof. reflexivity. Qed.

Lemma cv2_bound : load_global "cv2" = ret tt.
Proof. reflexivity. Qed.

Variable sha : list N -> string.

(** Unfold the stages of [process_file]. *)
Ltac open_pipeline :=
  unfold process_file, try_except, process_file_body;
  unfold compute_sha256, is_processed, curation_check_duplicate,
    generate_output_path, save, create_sidecar_json, mark_processed,
    write_file, print, fail_if;
  rewrite ?np_unbound, ?cv2_bound;
  unfold bind, lift, ret, raise; simpl.

(** Every call returns normally; it returns a path only for a file whose
    hash was not in the table, which it then inserts, and only with face
    blurring off; otherwise the table is as before. *)
Lemma process_file_outcome (w : world) (cfg : MediaIngestConfig)
    (p : Path) (src : string) (st : state) :
  exists r st',
    process_file sha w cfg p src st = (Ok r, st')
    /\ ((r = None /\ db st' = db st)
        \/ (exists out bytes rw,
              r = Some out
              /\ read_bytes w p = Ok bytes
              /\ db st !! sha bytes = None
              /\ db st' = <[sha bytes := rw]> (db st)
              /\ face_blur_enabled cfg = false)).
Proof.
  open_pipeline.
  repeat (case_head; simpl;
          try (eexists _, _; split;
               [reflexivity | left; split; reflexivity])).
  eexists _, _. split; [reflexivity|]. right.
  eexists _, _, _. repeat split.
  match goal with
  | H : bool_decide _ = false |- _ =>
      apply bool_decide_eq_false in H;
      apply eq_None_not_Some; exact H
  end.
Qed.

(** With face blurring on, nothing is stored or written. *)
Lemma process_file_face_blur (w : world) (cfg : MediaIngestConfig)
    (p : Path) (src : string) (st : state) :
  face_blur_enabled cfg = true ->
  exists st',
    process_file sha w cfg p src st = (Ok None, st')
    /\ db st' = db st /\ written st' = written st.
Proof.
  intros Hblur. open_pipeline. rewrite Hblur.
  repeat (case_head; simpl;
          try (eexists; split; [reflexivity | split; reflexivity])).
Qed.

(** A file whose hash is in the table is skipped before anything else is
    looked at. *)
Lemma process_file_already_processed (w : world)
    (cfg : MediaIngestConfig) (p : Path) (src : string) (st : state)
    (bytes : list N) :
  read_bytes w p = Ok bytes ->
  is_Some (db st !! sha bytes) ->
  exists st',
    process_file sha w cfg p src st = (Ok None, st')
    /\ db st' = db st /\ written st' = written st
    /\ seen_hashes st' = seen_hashes st.
Proof.
  intros Hread Hin. open_pipeline. rewrite Hread.
  destruct (select_error w); simpl;
    [eexists; (split; [reflexivity | repeat split; reflexivity])|].
  case_head; simpl;
    [eexists; (split; [reflexivity | repeat split; reflexivity])|].
  match goal with
  | H : bool_decide _ = false |- _ =>
      apply bool_decide_eq_false in H; contradiction
  end.
Qed.

Lemma process_file_keeps_rows (w : world) (cfg : MediaIngestConfig)
    (p : Path) (src : string) (st : state) (h : string) (r : row) :
  db st !! h = Some r ->
  db (snd (process_file sha w cfg p src st)) !! h = Some r.
Proof.
  intros Hrow.
  destruct (process_file_outcome w cfg p src st)
    as (res & st' & Hrun & [[_ Hdb] | (out & bytes & rw & _ & _ & Hnew & Hdb & _)]);
    rewrite Hrun; simpl; rewrite Hdb; [exact Hrow|].
  rewrite lookup_insert_ne; [exact Hrow|].
  intros Heq. subst h. congruence.
Qed.

Lemma run_calls_keeps_rows (calls : list call) :
  forall (st : state) (h : string) (r : row),
    db st !! h = Some r -> db (run_calls sha calls st) !! h = Some r.
Proof.
  induction calls as [|c calls IH]; intros st h r Hrow; simpl.
  - exact Hrow.
  - apply IH. apply process_file_keeps_rows. exact Hrow.
Qed.


Lemma collect_ok (futures : list (result (option Path))) :
  Forall (fun f => is_ok f = true) futures ->
  forall acc st,
    collect futures acc st = (Ok (acc ++ outputs_of futures), st).
Proof.
  induction 1 as [|f futures Hf _ IH]; intros acc st; simpl.
  - unfold ret. rewrite app_nil_r. reflexivity.
  - destruct f as [[out|]|e]; simpl in Hf; try discriminate.
    + unfold bind, try_except, lift, ret. simpl.
      rewrite IH. rewrite <- app_assoc. reflexivity.
    + unfold bind, try_except, lift, ret. simpl.
      rewrite IH. reflexivity.
Qed.

End PipelineFacts.

(** C1: once [process_file] has accepted a file, the row for its sha256 is
    in the table and stays there, unchanged, through any later calls; every
    later [is_processed] on that hash answers [True]; and a call on a file
    with the same bytes returns [None] having stored no row, written no
    file and registered no perceptual hash -- the lookup precedes every
    other stage, so this holds whatever the other stages would do. *)
Theorem process_file_idempotent
    (sha : list N -> string)
    (w1 : Pipeline.world) (cfg1 : IngestConfig.MediaIngestConfig)
    (p1 : Pipeline.Path) (src1 : string) (st0 st1 : Pipeline.state)
    (out : Pipeline.Path) (bytes : list N) (later : list Pipeline.call)
    (w2 : Pipeline.world) (cfg2 : IngestConfig.MediaIngestConfig)
    (p2 : Pipeline.Path) (src2 : string) :
  Pipeline.process_file sha w1 cfg1 p1 src1 st0 = (Ok (Some out), st1) ->
  Pipeline.read_bytes w1 p1 = Ok bytes ->
  Pipeline.read_bytes w2 p2 = Ok bytes ->
  let st2 := Pipeline.run_calls sha later st1 in
  exists (record : Pipeline.row) (st3 : Pipeline.state),
    Pipeline.db st0 !! sha bytes = None
    /\ Pipeline.db st1 !! sha bytes = Some record
    /\ Pipeline.db st2 !! sha bytes = Some record
    /\ (forall w', Pipeline.select_error w' = None ->
          Pipeline.is_processed w' (sha bytes) st2 = (Ok true, st2))
    /\ Pipeline.process_file sha w2 cfg2 p2 src2 st2 = (Ok None, st3)
    /\ Pipeline.db st3 = Pipeline.db st2
    /\ Pipeline.written st3 = Pipeline.written st2
    /\ Pipeline.seen_hashes st3 = Pipeline.seen_hashes st2.
Proof.
  intros Hfirst Hread1 Hread2 st2.
  destruct (process_file_outcome sha w1 cfg1 p1 src1 st0)
    as (r & st' & Hrun & Hcase).
  rewrite Hfirst in Hrun. injection Hrun as <- <-.
  destruct Hcase as [[Hnone _] | (out' & bytes' & rw & _ & Hread & Hfresh & Hdb & _)];
    [discriminate|].
  rewrite Hread1 in Hread. injection Hread as <-.
  assert (Hrow1 : Pipeline.db st1 !! sha bytes = Some rw).
  { rewrite Hdb. apply lookup_insert_eq. }
  assert (Hrow2 : Pipeline.db st2 !! sha bytes = Some rw).
  { apply run_calls_keeps_rows. exact Hrow1. }
  destruct (process_file_already_processed sha w2 cfg2 p2 src2 st2 bytes Hread2)
    as (st3 & Hsecond & Hdb3 & Hwr3 & Hseen3).
  { rewrite Hrow2. eexists. reflexivity. }
  exists rw, st3. repeat split; try assumption.
  intros w' Hsel. unfold Pipeline.is_processed, Py.bind, Py.fail_if.
  rewrite Hsel. unfold Py.ret. simpl.
  rewrite bool_decide_eq_true_2; [reflexivity|].
  rewrite Hrow2. eexists. reflexivity.
Qed.

Lemma process_file_idempotent_witness :
  let accepted :=
    Pipeline.process_file Pipeline.toy_digest Pipeline.studio
      Pipeline.blur_off Pipeline.door "nas" Pipeline.empty_state in
  is_ok (fst accepted) = true
  /\ exists st3,
       Pipeline.process_file Pipeline.toy_digest Pipeline.studio
         Pipeline.blur_off Pipeline.door_copy "drive" (snd accepted)
       = (Ok None, st3)
       /\ Pipeline.db st3 = Pipeline.db (snd accepted).
Proof.
  intros accepted. split; [reflexivity|].
  destruct (process_file_idempotent Pipeline.toy_digest Pipeline.studio
              Pipeline.blur_off Pipeline.door "nas" Pipeline.empty_state
              (snd accepted)
              {| Pipeline.parent := "/media/curated/2025/01/door";
                 Pipeline.stem := "door"; Pipeline.suffix := ".jpg" |}
              [1; 2; 3]%N [] Pipeline.studio Pipeline.blur_off
              Pipeline.door_copy "drive")
    as (record & st3 & _ & _ & _ & _ & Hsecond & Hdb & _).
  - reflexivity.
  - reflexivity.
  - reflexivity.
  - exists st3. split; [exact Hsecond | exact Hdb].
Defined.



(** C10: with [face_blur_enabled] set, [process_file] returns [None] for
    every file and stores and writes nothing; a file that passes the
    already-processed, duplicate and curation checks and is enhanced and
    watermarked reaches the face-blur branch, where the global [np], which
    [pipeline.py] never binds, raises [NameError], which the handler prints
    before returning [None]. *)
Theorem face_blur_enabled_skips_every_file
    (sha : list N -> string) (w : Pipeline.world)
    (cfg : IngestConfig.MediaIngestConfig) (p : Pipeline.Path)
    (src : string) (st : Pipeline.state) :
  IngestConfig.face_blur_enabled cfg = true ->
  (exists st',
     Pipeline.process_file sha w cfg p src st = (Ok None, st')
     /\ Pipeline.db st' = Pipeline.db st
     /\ Pipeline.written st' = Pipeline.written st)
  /\ ~ In "np" Pipeline.module_globals
  /\ (forall bytes pil cv h scores reasons enhanced marked,
        Pipeline.read_bytes w p = Ok bytes ->
        Pipeline.select_error w = None ->
        Pipeline.db st !! sha bytes = None ->
        Pipeline.image_open w p = Ok pil ->
        Pipeline.imread w p = Ok cv ->
        Pipeline.perceptual_hash w p = Ok h ->
        fst (Curation.check_duplicate cfg h (Pipeline.seen_hashes st)) = false ->
        Pipeline.score_image w p = Ok scores ->
        Curation.should_keep_image cfg scores = Ok (true, reasons) ->
        Pipeline.process_image w pil = Ok enhanced ->
        Pipeline.apply_watermark w enhanced = Ok marked ->
        exists st1,
          Pipeline.process_file_body sha w cfg p src st =
            (Raise (NameError "np"), st1)
          /\ Pipeline.process_file sha w cfg p src st =
               (Ok None,
                snd (Pipeline.print (Pipeline.log_error p (NameError "np")) st1))).
Proof.
  intros Hblur. split; [|split].
  - apply process_file_face_blur. exact Hblur.
  - vm_compute. intuition discriminate.
  - intros bytes pil cv h scores reasons enhanced marked
      Hread Hsel Hfresh Hopen Himread Hhash Hdup Hscore Hkeep Henh Hmark.
    assert (Hbody : exists st1,
      Pipeline.process_file_body sha w cfg p src st =
        (Raise (NameError "np"), st1)).
    { unfold Pipeline.process_file_body.
      unfold Pipeline.compute_sha256, Pipeline.is_processed,
        Pipeline.curation_check_duplicate, Pipeline.print, Py.fail_if.
      rewrite np_unbound, cv2_bound.
      unfold Py.bind, Py.lift, Py.ret, Py.raise. simpl.
      rewrite Hread, Hsel. simpl.
      rewrite bool_decide_eq_false_2
        by (rewrite Hfresh; intros [? ?]; discriminate).
      rewrite Hopen, Himread, Hhash. simpl.
      destruct (Curation.check_duplicate cfg h (Pipeline.seen_hashes st))
        as [dup seen] eqn:Hcheck.
      simpl in Hdup. subst dup. simpl.
      rewrite Hscore, Hkeep. simpl.
      rewrite Henh, Hmark, Hblur. eexists. reflexivity. }
    destruct Hbody as [st1 Hbody]. exists st1. split; [exact Hbody|].
    unfold Pipeline.process_file, Py.try_except. rewrite Hbody. reflexivity.
Qed.

Lemma face_blur_enabled_skips_every_file_witness :
  fst (Pipeline.process_file Pipeline.toy_digest Pipeline.studio
         IngestConfig.defaults Pipeline.door "nas" Pipeline.empty_state)
    = Ok None
  /\ fst (Pipeline.process_file_body Pipeline.toy_digest Pipeline.studio
            IngestConfig.defaults Pipeline.door "nas" Pipeline.empty_state)
     = Raise (NameError "np").
Proof.
  destruct (face_blur_enabled_skips_every_file Pipeline.toy_digest
              Pipeline.studio IngestConfig.defaults Pipeline.door "nas"
              Pipeline.empty_state eq_refl) as ((st' & Hrun & _) & _ & Hnp).
  split; [rewrite Hrun; reflexivity|].
  destruct (Hnp [1; 2; 3]%N [10; 20; 30]%N (Some [30; 20; 10]%N)
              [Curation.x0; Curation.xf; Curation.x3; Curation.xc]
              (Curation.scores_dict Pipeline.fine_scores) []
              [10; 20; 30; 10; 20; 30]%N
              [255; 10; 20; 30; 10; 20; 30]%N) as (st1 & Hbody & _);
    [reflexivity .. | rewrite Hbody; reflexivity].
Defined.

(** ** The generation cache of generate.py *)

Section GenerateFacts.
Import Generate.

Lemma logged_new (new : list log_line) (before after : SDXLGenerator) :
  log after = new ++ log before -> logged before after = rev new.
Proof.
  intros H. unfold logged. rewrite H. f_equal.
  apply take_app_length'. rewrite List.length_app. lia.
Qed.


Lemma generate_background_miss (run : cache_key -> result ndarray)
    prompt negative width height steps scale seed
    (self : SDXLGenerator) (img : ndarray) :
  is_available self = true ->
  _cache self !! (prompt, negative, width, height, steps, scale, seed)
    = None ->
  run (prompt, negative, width, height, steps, scale, seed) = Ok img ->
  generate_background run prompt negative width height steps scale seed self
  = (Ok img,
     {| pipeline_loaded := pipeline_loaded self;
        _cache := <[(prompt, negative, width, height, steps, scale, seed)
                    := img]> (_cache self);
        log := log_complete
               :: log_generating prompt width height steps :: log self |}).
Proof.
  intros Havail Hout Hrun. unfold generate_background, try_except.
  rewrite Havail. simpl. rewrite Hout.
  unfold bind, log_info, lift, cache_store, ret. simpl.
  rewrite Hrun. reflexivity.
Qed.



End GenerateFacts.



(** ** The poll loop of runway_adapter.py *)

Section RunwayFacts.
Import Runway.

Variable network : nat -> exchange.
Variable start_time : Q.
Variable max_wait_time : Z.

Lemma poll_iteration_expired (st : poll_state) :
  ~ (now st - start_time < inject_Z max_wait_time)%Q ->
  poll_iteration network start_time max_wait_time st
  = stop (Raise timeout_error) st.
Proof.
  intros H. unfold poll_iteration.
  destruct (Qltb _ _) eqn:E; [|reflexivity].
  apply Qltb_lt in E. contradiction.
Qed.



End RunwayFacts.

Section RunwayRetries.
Import Runway.


End RunwayRetries.



(** ** The replace handler of main.py *)

Section ServiceFacts.
Import Generate Service.

Ltac open_generate :=
  unfold generate, try_except, import_from, emit;
  unfold bind, lift, ret, raise; simpl.

(** Whatever happens, the engine calls of one request are in one
    direction: never a remote call after a local one. *)
Lemma generate_events (adapter : list string) (cfg : settings)
    (rq : request) (md : Z) (s : server) :
  exists new,
    events (snd (generate adapter cfg rq md s)) = events s ++ new
    /\ limiter (snd (generate adapter cfg rq md s)) = limiter s
    /\ one_way new = true.
Proof.
  open_generate.
  repeat (case_head; simpl).
  all: rewrite <- ?app_assoc; simpl.
  all: try (eexists; split; [reflexivity | split; reflexivity]).
  all: try (exists []; rewrite app_nil_r;
            split; [reflexivity | split; reflexivity]).
Qed.



(** A request that reaches the choice of the engine answers with what
    follows from the generated background. *)
Lemma replace_background_reaches (adapter : list string) (cfg : settings)
    (rq : request) (now : Q) (s : server) :
  reaches_generation cfg rq now s = true ->
  replace_background_with adapter cfg rq now s =
    (completed rq
       (fst (generate adapter cfg rq (max_dim rq) (admitted now s))),
     snd (generate adapter cfg rq (max_dim rq) (admitted now s))).
Proof.
  unfold reaches_generation. rewrite !andb_true_iff, !negb_true_iff.
  intros [[[[[Htok Hsteps] Hscale] Hload] Hmask] Htimeout].
  unfold replace_background_with, consume, admitted, max_dim, completed.
  unfold try_except, bind, lift, ret, raise.
  destruct (_consume_token now (limiter s)) as [ok b]. simpl in Htok.
  subst ok. simpl. rewrite Hsteps, Hscale. simpl.
  destruct (load_image rq) as [[h w]|]; [|discriminate].
  destruct (masking rq) as [[]|]; [|discriminate]. simpl.
  destruct (generate adapter cfg rq (Z.max w h) _) as [[bg|e] s1]; simpl;
    [|reflexivity].
  destruct (finish rq bg); reflexivity.
Qed.

End ServiceFacts.




(** The handler of [main.py] takes its token before it looks at the size:
    a request rejected for its size has cost a token. *)
Example replace_background_oversize_costs_token :
  exists s',
    Service.replace_background Service.sdxl_only Service.billboard 0
      Service.idle
    = (Raise (HTTPException 400
                "4K+ resolution not allowed in SDXL mode unless ALLOW_4K=1"),
       s')
    /\ Service._bucket_tokens (Service.limiter s') = 9
    /\ Service._bucket_tokens (Service.limiter Service.idle) = 10.
Proof. eexists. split; [reflexivity|]. split; reflexivity. Qed.

(** On a dictionary that lacks a key, formatting the reason raises. *)
Example should_keep_image_missing_key :
  Curation.should_keep_image IngestConfig.defaults ∅
  = Raise (KeyError "aesthetic").
Proof. reflexivity. Qed.

(** * Further properties *)

(** ** Token buckets: bounds and rate *)

Section BucketFacts.
Import Limits.

Lemma int_le_when_positive (q : Q) : 0 < Py.int q -> (inject_Z (Py.int q) <= q)%Q.
Proof.
  unfold Py.int. destruct (Qle_bool 0 q) eqn:Hsign; intros Hpos.
  - apply Qfloor_le.
  - exfalso.
    assert (Hneg : ~ (0 <= q)%Q).
    { intros H. apply Qle_bool_iff in H. congruence. }
    apply Qnot_le_lt in Hneg.
    assert (Hc : Qceiling q <= 0).
    { change 0 with (Qceiling (inject_Z 0)).
      apply Qceiling_resp_le. apply Qlt_le_weak. exact Hneg. }
    lia.
Qed.

(** One call: the bounds are kept, and what the call grants plus what it
    leaves is covered by what it found plus the time credited. *)
Lemma acquire_step (now : Q) (size : Z * Z) (self : TokenBucketLimiter) :
  0 <= tokens self <= capacity self ->
  let r := fst (acquire now size self) in
  let self' := snd (acquire now size self) in
  0 <= tokens self' <= capacity self'
  /\ capacity self' = capacity self
  /\ (inject_Z (Buckets.granted [r]) + inject_Z (tokens self')
      <= inject_Z (tokens self)
         + (last_refill self' - last_refill self)
           * (inject_Z (capacity self) / 60))%Q.
Proof.
  intros Hb. unfold acquire.
  assert (Hre : 0 <= tokens (_refill now self) <= capacity (_refill now self)
                /\ capacity (_refill now self) = capacity self
                /\ (inject_Z (tokens (_refill now self))
                    <= inject_Z (tokens self)
                       + (last_refill (_refill now self) - last_refill self)
                         * (inject_Z (capacity self) / 60))%Q).
  { unfold _refill. destruct (0 <? refill_amount now self) eqn:Hpos; simpl.
    - apply Z.ltb_lt in Hpos. split; [lia|]. split; [reflexivity|].
      pose proof (int_le_when_positive _ Hpos) as Hle.
      fold (refill_amount now self) in Hle.
      assert (Hmin : (inject_Z (Z.min (capacity self)
                                  (tokens self + refill_amount now self))
                      <= inject_Z (tokens self)
                         + inject_Z (refill_amount now self))%Q).
      { rewrite <- inject_Z_plus. rewrite <- Zle_Qle. lia. }
      lra.
    - split; [lia|]. split; [reflexivity|]. lra. }
  destruct Hre as (Hb' & Hcap & Hcredit).
  set (self1 := _refill now self) in *.
  destruct (oversize size && negb (allow_4k self1)); simpl.
  - split; [exact Hb'|]. split; [exact Hcap|].
    change (inject_Z 0) with 0%Q. lra.
  - destruct (0 <? tokens self1) eqn:Hpos; simpl.
    + apply Z.ltb_lt in Hpos. split; [lia|]. split; [exact Hcap|].
      assert (H1 : (inject_Z (tokens self1 - 1)
                    == inject_Z (tokens self1) - 1)%Q).
      { unfold Z.sub. rewrite inject_Z_plus. reflexivity. }
      rewrite H1. change (inject_Z (1 + 0)) with 1%Q. lra.
    + split; [exact Hb'|]. split; [exact Hcap|].
      change (inject_Z 0) with 0%Q. lra.
Qed.

End BucketFacts.

Lemma acquire_all_run (calls : list (Q * (Z * Z))) :
  forall self : Limits.TokenBucketLimiter,
    0 <= Limits.tokens self <= Limits.capacity self ->
    let rs := fst (Limits.acquire_all calls self) in
    let self' := snd (Limits.acquire_all calls self) in
    0 <= Limits.tokens self' <= Limits.capacity self'
    /\ Limits.capacity self' = Limits.capacity self
    /\ (inject_Z (Buckets.granted rs) + inject_Z (Limits.tokens self')
        <= inject_Z (Limits.tokens self)
           + (Limits.last_refill self' - Limits.last_refill self)
             * (inject_Z (Limits.capacity self) / 60))%Q.
Proof.
  induction calls as [|[now size] calls IH]; intros self Hb; simpl.
  - split; [exact Hb|]. split; [reflexivity|].
    change (inject_Z 0) with 0%Q. lra.
  - destruct (acquire_step now size self Hb) as (Hb1 & Hcap1 & Hstep).
    destruct (Limits.acquire now size self) as [r self1].
    cbn [fst snd] in Hb1, Hcap1, Hstep.
    specialize (IH self1 Hb1).
    destruct (Limits.acquire_all calls self1) as [rs self2].
    cbn [fst snd] in IH |- *.
    destruct IH as (Hb2 & Hcap2 & Hrest).
    split; [exact Hb2|]. split; [congruence|].
    rewrite Hcap1 in Hrest.
    assert (Hsum : (inject_Z (Buckets.granted (r :: rs))
                    == inject_Z (Buckets.granted [r])
                       + inject_Z (Buckets.granted rs))%Q).
    { rewrite <- inject_Z_plus. apply inject_Z_injective.
      destruct r as [[|]|]; simpl; lia. }
    rewrite Hsum.
    set (k := (inject_Z (Limits.capacity self) / 60)%Q) in *.
    assert (Hsplit : ((Limits.last_refill self2 - Limits.last_refill self) * k
                      == (Limits.last_refill self2 - Limits.last_refill self1) * k
                         + (Limits.last_refill self1 - Limits.last_refill self) * k)%Q)
      by ring.
    rewrite Hsplit. lra.
Qed.

(** X1: the limiter keeps [0 <= tokens <= capacity], and its capacity, over
    any sequence of [acquire] calls, whatever the clock readings and sizes. *)
Theorem acquire_all_keeps_bounds
    (calls : list (Q * (Z * Z))) (self : Limits.TokenBucketLimiter) :
  0 <= Limits.tokens self <= Limits.capacity self ->
  0 <= Limits.tokens (snd (Limits.acquire_all calls self))
    <= Limits.capacity (snd (Limits.acquire_all calls self))
  /\ Limits.capacity (snd (Limits.acquire_all calls self))
     = Limits.capacity self.
Proof.
  intros Hb. destruct (acquire_all_run calls self Hb) as (H1 & H2 & _).
  split; assumption.
Qed.

Lemma acquire_all_keeps_bounds_witness :
  let self := Limits.__init__ 3 false 0 in
  let calls := [(0%Q, (512, 512)); (5%Q, (8192, 512)); (70%Q, (64, 64));
                (1%Q, (64, 64))] in
  0 <= Limits.tokens (snd (Limits.acquire_all calls self)) <= 3.
Proof.
  intros self calls.
  destruct (acquire_all_keeps_bounds calls self) as [Hb Hcap].
  - simpl. lia.
  - rewrite Hcap in Hb. exact Hb.
Defined.







(** ** The duplicate index: what it holds and what it answers *)

Section CurationRunFacts.
Import IngestConfig Curation CurationRuns.

Lemma count_ones_pos_positive (p : positive) : 0 < count_ones_pos p.
Proof. induction p; simpl; lia. Qed.

Lemma count_ones_nonneg (n : N) : 0 <= count_ones n.
Proof.
  destruct n; simpl; [lia|]. pose proof (count_ones_pos_positive p). lia.
Qed.

Lemma is_duplicate_self (cfg : MediaIngestConfig) (h : PerceptualHash) :
  0 <= duplicate_hamming_threshold cfg -> is_duplicate cfg h h None = true.
Proof.
  intros Ht. unfold is_duplicate. rewrite N.lxor_nilpotent. simpl.
  apply Z.leb_le. exact Ht.
Qed.

Lemma is_duplicate_never (cfg : MediaIngestConfig) (a b : PerceptualHash) :
  duplicate_hamming_threshold cfg < 0 -> is_duplicate cfg a b None = false.
Proof.
  intros Ht. unfold is_duplicate. apply Z.leb_gt.
  pose proof (count_ones_nonneg (N.lxor (int16 a) (int16 b))). lia.
Qed.

(** A hash is covered when some hash of the set is a duplicate of it. *)
Lemma check_duplicate_covers (cfg : MediaIngestConfig) (h : PerceptualHash)
    (seen : gset PerceptualHash) :
  0 <= duplicate_hamming_threshold cfg ->
  exists s, s ∈ snd (check_duplicate cfg h seen)
            /\ is_duplicate cfg h s None = true.
Proof.
  intros Ht. unfold check_duplicate.
  destruct (scan_seen cfg h (elements seen)) eqn:E; simpl.
  - apply scan_seen_true in E. destruct E as (s & Hs & Hd).
    exists s. split; [apply elem_of_elements; exact Hs | exact Hd].
  - exists h. split; [apply elem_of_union_l, elem_of_singleton; reflexivity|].
    apply is_duplicate_self. exact Ht.
Qed.

Lemma check_duplicate_grows (cfg : MediaIngestConfig) (h : PerceptualHash)
    (seen : gset PerceptualHash) :
  seen ⊆ snd (check_duplicate cfg h seen).
Proof.
  unfold check_duplicate.
  destruct (scan_seen cfg h (elements seen)); simpl;
    [reflexivity | apply union_subseteq_r].
Qed.

Lemma check_all_grows (cfg : MediaIngestConfig) (hs : list PerceptualHash) :
  forall seen, seen ⊆ snd (check_all cfg hs seen).
Proof.
  induction hs as [|h hs IH]; intros seen; simpl; [reflexivity|].
  pose proof (check_duplicate_grows cfg h seen) as H1.
  destruct (check_duplicate cfg h seen) as [dup seen1]. simpl in H1.
  specialize (IH seen1).
  destruct (check_all cfg hs seen1) as [dups seen2]. simpl in *.
  etransitivity; eassumption.
Qed.

Lemma check_duplicate_separated (cfg : MediaIngestConfig)
    (h : PerceptualHash) (seen : gset PerceptualHash) :
  separated cfg seen -> separated cfg (snd (check_duplicate cfg h seen)).
Proof.
  intros Hsep. unfold check_duplicate.
  destruct (scan_seen cfg h (elements seen)) eqn:E; simpl; [exact Hsep|].
  assert (Hfar : forall s, s ∈ seen -> is_duplicate cfg h s None = false).
  { intros s Hs. destruct (is_duplicate cfg h s None) eqn:Hd; [|reflexivity].
    assert (H : scan_seen cfg h (elements seen) = true).
    { apply scan_seen_true. exists s.
      split; [apply elem_of_elements; exact Hs | exact Hd]. }
    congruence. }
  intros a b Ha Hb Hne.
  apply elem_of_union in Ha. apply elem_of_union in Hb.
  destruct Ha as [Ha|Ha], Hb as [Hb|Hb].
  - apply elem_of_singleton in Ha. apply elem_of_singleton in Hb. congruence.
  - apply elem_of_singleton in Ha. subst a. apply Hfar. exact Hb.
  - apply elem_of_singleton in Hb. subst b. rewrite is_duplicate_sym.
    apply Hfar. exact Ha.
  - apply Hsep; assumption.
Qed.

End CurationRunFacts.

(** X4: whatever hashes are submitted to [check_duplicate], in whatever
    order, [seen_hashes] never comes to hold two different hashes within
    the threshold of each other. *)
Theorem seen_hashes_stay_separated
    (cfg : IngestConfig.MediaIngestConfig)
    (hs : list Curation.PerceptualHash) :
  forall seen : gset Curation.PerceptualHash,
    CurationRuns.separated cfg seen ->
    CurationRuns.separated cfg (snd (CurationRuns.check_all cfg hs seen)).
Proof.
  induction hs as [|h hs IH]; intros seen Hsep; simpl; [exact Hsep|].
  pose proof (check_duplicate_separated cfg h seen Hsep) as H1.
  destruct (Curation.check_duplicate cfg h seen) as [dup seen1].
  simpl in H1. specialize (IH seen1 H1).
  destruct (CurationRuns.check_all cfg hs seen1) as [dups seen2].
  exact IH.
Qed.

Lemma seen_hashes_stay_separated_witness :
  let far := [Curation.xf; Curation.xf; Curation.xf; Curation.xf] in
  let near := [Curation.x0; Curation.x0; Curation.x0; Curation.x1] in
  let zero := [Curation.x0; Curation.x0; Curation.x0; Curation.x0] in
  fst (CurationRuns.check_all IngestConfig.defaults [zero; near; far; zero] ∅)
    = [false; true; false; true]
  /\ CurationRuns.separated IngestConfig.defaults
       (snd (CurationRuns.check_all IngestConfig.defaults
               [zero; near; far; zero] ∅)).
Proof.
  intros far near zero. split; [reflexivity|].
  apply seen_hashes_stay_separated.
  intros a b Ha. exfalso. exact (not_elem_of_empty a Ha).
Defined.

(** X5: with a non-negative threshold, a hash that has once been submitted
    to [check_duplicate] is reported as a duplicate on every later
    submission, whatever was submitted in between, and that later call
    leaves [seen_hashes] as it is. *)
Theorem resubmitted_hash_is_duplicate
    (cfg : IngestConfig.MediaIngestConfig) (h : Curation.PerceptualHash)
    (between : list Curation.PerceptualHash)
    (seen : gset Curation.PerceptualHash) :
  0 <= IngestConfig.duplicate_hamming_threshold cfg ->
  let after_first := snd (Curation.check_duplicate cfg h seen) in
  let later := snd (CurationRuns.check_all cfg between after_first) in
  Curation.check_duplicate cfg h later = (true, later).
Proof.
  intros Ht after_first later.
  destruct (check_duplicate_covers cfg h seen Ht) as (s & Hs & Hd).
  apply (check_duplicate_hit cfg h s); [|exact Hd].
  apply (check_all_grows cfg between after_first). exact Hs.
Qed.

Lemma resubmitted_hash_is_duplicate_witness :
  let h := [Curation.xa; Curation.xb; Curation.xc] in
  let other := [Curation.x0; Curation.x0; Curation.x0] in
  let later :=
    snd (CurationRuns.check_all IngestConfig.defaults [other]
           (snd (Curation.check_duplicate IngestConfig.defaults h ∅))) in
  Curation.check_duplicate IngestConfig.defaults h later = (true, later).
Proof.
  intros h other later.
  apply (resubmitted_hash_is_duplicate IngestConfig.defaults h [other] ∅).
  simpl. lia.
Defined.

(** X6: with a negative threshold nothing is ever a duplicate: every
    submitted hash is answered [False] and inserted, even one that is
    already in [seen_hashes]. *)
Theorem negative_threshold_never_duplicate
    (cfg : IngestConfig.MediaIngestConfig) (h : Curation.PerceptualHash)
    (seen : gset Curation.PerceptualHash) :
  IngestConfig.duplicate_hamming_threshold cfg < 0 ->
  Curation.check_duplicate cfg h seen = (false, {[h]} ∪ seen)
  /\ Curation.check_duplicate cfg h ({[h]} ∪ seen)
     = (false, {[h]} ∪ seen).
Proof.
  intros Ht.
  assert (H : forall known,
             Curation.check_duplicate cfg h known = (false, {[h]} ∪ known)).
  { intros known. apply check_duplicate_miss.
    intros s _. apply is_duplicate_never. exact Ht. }
  split; [apply H|]. rewrite H. f_equal.
  apply set_eq. intros x. rewrite !elem_of_union. tauto.
Qed.

Lemma negative_threshold_never_duplicate_witness :
  let cfg := CurationRuns.with_threshold (-1) IngestConfig.defaults in
  let h := [Curation.xa; Curation.xb; Curation.xc] in
  fst (CurationRuns.check_all cfg [h; h; h] ∅) = [false; false; false].
Proof.
  intros cfg h.
  destruct (negative_threshold_never_duplicate cfg h ∅) as [H1 H2].
  - simpl. lia.
  - simpl. rewrite H1. rewrite H2. rewrite H2. reflexivity.
Defined.

(** ** The ingestion pipeline: what a call leaves behind *)

(** Unfold the stages of [process_file] down to the state they thread. *)
Ltac unfold_pipeline :=
  unfold Pipeline.process_file, Py.try_except, Pipeline.process_file_body;
  unfold Pipeline.compute_sha256, Pipeline.is_processed,
    Pipeline.curation_check_duplicate, Pipeline.generate_output_path,
    Pipeline.save, Pipeline.create_sidecar_json, Pipeline.mark_processed,
    Pipeline.write_file, Pipeline.print, Py.fail_if;
  rewrite ?np_unbound, ?cv2_bound;
  unfold Py.bind, Py.lift, Py.ret, Py.raise; simpl.

(** X7: when [process_file] returns a path, that path is the one
    [generate_output_path] chose; the call has written exactly two files,
    the image at that path with quality 95 and then the sidecar beside it
    with suffix [.json], recording the source, both paths and the scores
    with [kept = True]; it has stored the row of the file's sha256 with
    these paths and source; it has registered the perceptual hash; and it
    has printed the start and success lines. *)
Theorem process_file_success_effects
    (sha : list N -> string) (w : Pipeline.world)
    (cfg : IngestConfig.MediaIngestConfig) (p : Pipeline.Path)
    (src : string) (st st1 : Pipeline.state) (out : Pipeline.Path) :
  Pipeline.process_file sha w cfg p src st = (Ok (Some out), st1) ->
  exists bytes h scores reasons img,
    Pipeline.read_bytes w p = Ok bytes
    /\ Pipeline.perceptual_hash w p = Ok h
    /\ Curation.check_duplicate cfg h (Pipeline.seen_hashes st)
       = (false, Pipeline.seen_hashes st1)
    /\ Pipeline.score_image w p = Ok scores
    /\ Curation.should_keep_image cfg scores = Ok (true, reasons)
    /\ Pipeline.output_path_for w (Pipeline.written st) p = Ok out
    /\ Pipeline.written st1 =
         (Pipeline.with_suffix out ".json",
          Pipeline.json_file
            {| Pipeline.md_source := src;
               Pipeline.md_original_path := p;
               Pipeline.md_output_path := out;
               Pipeline.md_processed_at := Pipeline.now_iso w;
               Pipeline.md_scores := scores;
               Pipeline.md_kept := true;
               Pipeline.md_reasons := [];
               Pipeline.md_backend := IngestConfig.enhancement_backend cfg;
               Pipeline.md_scale := IngestConfig.enhancement_scale cfg;
               Pipeline.md_faces_blurred := false;
               Pipeline.md_watermark := IngestConfig.watermark_path cfg;
               Pipeline.md_brand := "vitrinealu" |})
         :: (out, Pipeline.image_file img 95) :: Pipeline.written st
    /\ Pipeline.db st1 =
         <[sha bytes := {| Pipeline.source_path := p;
                           Pipeline.output_path := out;
                           Pipeline.processed_at := Pipeline.now_iso w;
                           Pipeline.source := src |}]> (Pipeline.db st)
    /\ Pipeline.stdout st1 =
         Pipeline.log_success p out :: Pipeline.log_processing p src
         :: Pipeline.stdout st.
Proof.
  unfold_pipeline.
  repeat (case_head; simpl; try (intros H; discriminate H)).
  intros H. injection H as <- <-. simpl.
  eexists _, _, _, _, _. repeat split; try reflexivity; try eassumption.
  match goal with
  | H : Curation.should_keep_image _ _ = Ok (?k, _) |- _ =>
      destruct k; [exact H | discriminate]
  end.
Qed.

Lemma process_file_success_effects_witness :
  exists st1,
    Pipeline.process_file Pipeline.toy_digest Pipeline.studio
      Pipeline.blur_off Pipeline.door "nas" Pipeline.empty_state
    = (Ok (Some {| Pipeline.parent := "/media/curated/2025/01/door";
                   Pipeline.stem := "door"; Pipeline.suffix := ".jpg" |}),
       st1)
    /\ length (Pipeline.written st1) = 2%nat
    /\ Pipeline.db st1 !! "039f" =
         Some {| Pipeline.source_path := Pipeline.door;
                 Pipeline.output_path :=
                   {| Pipeline.parent := "/media/curated/2025/01/door";
                      Pipeline.stem := "door"; Pipeline.suffix := ".jpg" |};
                 Pipeline.processed_at := "2025-01-15T10:00:00";
                 Pipeline.source := "nas" |}.
Proof.
  eexists. split; [reflexivity|].
  destruct (process_file_success_effects Pipeline.toy_digest Pipeline.studio
              Pipeline.blur_off Pipeline.door "nas" Pipeline.empty_state
              _ _ eq_refl)
    as (bytes & h & scores & reasons & img & Hread & _ & _ & _ & _ & _
        & Hwritten & Hdb & _).
  split.
  - rewrite Hwritten. reflexivity.
  - rewrite Hdb. injection Hread as <-. apply lookup_insert_eq.
Defined.

Section PipelineEffects.
Import IngestConfig Curation Pipeline.

Variable sha : list N -> string.

(** A call removes nothing: rows, registered hashes, written files and
    printed lines all stay. *)
Lemma process_file_only_adds (w : world) (cfg : MediaIngestConfig)
    (p : Path) (src : string) (st : state) :
  let st1 := snd (process_file sha w cfg p src st) in
  seen_hashes st ⊆ seen_hashes st1
  /\ (exists new, written st1 = new ++ written st)
  /\ (exists new, stdout st1 = new ++ stdout st).
Proof.
  unfold_pipeline.
  repeat (case_head; simpl).
  all: repeat match goal with
         | H : check_duplicate _ _ _ = _ |- _ =>
             apply (f_equal snd) in H; simpl in H;
             pose proof (check_duplicate_grows cfg
                           ltac:(match type of H with
                                 | snd (check_duplicate _ ?h _) = _ => exact h
                                 end) (seen_hashes st)) as Hgrow;
             rewrite H in Hgrow; clear H
         end.
  all: split; [first [reflexivity | assumption]|].
  all: split;
    [first [exists []; reflexivity
           | eexists [_]; reflexivity
           | eexists [_; _]; reflexivity]
    | first [eexists [_]; reflexivity
            | eexists [_; _]; reflexivity
            | eexists [_; _; _]; reflexivity]].
Qed.

End PipelineEffects.

Section PipelineRetries.
Import IngestConfig Curation Pipeline.

Variable sha : list N -> string.

(** A call that gets as far as the duplicate check leaves the perceptual
    hash covered by [seen_hashes], whatever happens afterwards. *)
Lemma process_file_registers (w : world) (cfg : MediaIngestConfig)
    (p : Path) (src : string) (st : state) (bytes : list N)
    (pil : image) (cv : option image) (h : PerceptualHash) :
  0 <= duplicate_hamming_threshold cfg ->
  read_bytes w p = Ok bytes ->
  select_error w = None ->
  db st !! sha bytes = None ->
  image_open w p = Ok pil ->
  imread w p = Ok cv ->
  perceptual_hash w p = Ok h ->
  exists s, s ∈ seen_hashes (snd (process_file sha w cfg p src st))
            /\ is_duplicate cfg h s None = true.
Proof.
  intros Ht Hread Hsel Hfresh Hopen Himread Hhash.
  destruct (check_duplicate_covers cfg h (seen_hashes st) Ht)
    as (s & Hs & Hd).
  exists s. split; [|exact Hd]. revert Hs.
  unfold_pipeline. rewrite Hread, Hsel. simpl.
  rewrite bool_decide_eq_false_2
    by (rewrite Hfresh; intros [? ?]; discriminate).
  rewrite Hopen, Himread, Hhash. simpl.
  destruct (check_duplicate cfg h (seen_hashes st)) as [dup seen].
  simpl. intros Hs.
  repeat (case_head; simpl); exact Hs.
Qed.

(** A file whose perceptual hash is covered by [seen_hashes] is skipped,
    leaving the table and the written files as they are. *)
Lemma process_file_covered (w : world) (cfg : MediaIngestConfig)
    (p : Path) (src : string) (st : state) (h s : PerceptualHash) :
  perceptual_hash w p = Ok h ->
  s ∈ seen_hashes st ->
  is_duplicate cfg h s None = true ->
  exists st',
    process_file sha w cfg p src st = (Ok None, st')
    /\ db st' = db st /\ written st' = written st.
Proof.
  intros Hhash Hs Hd. unfold_pipeline. rewrite Hhash.
  repeat (case_head; simpl;
          try (eexists; split; [reflexivity | split; reflexivity])).
  all: match goal with
       | H : check_duplicate _ _ _ = (false, _) |- _ =>
           rewrite (check_duplicate_hit cfg h s (seen_hashes st) Hs Hd) in H;
           discriminate H
       end.
Qed.

Lemma run_calls_seen_grows (calls : list call) :
  forall st, seen_hashes st ⊆ seen_hashes (run_calls sha calls st).
Proof.
  induction calls as [|c calls IH]; intros st; simpl; [reflexivity|].
  etransitivity; [|apply IH].
  apply (process_file_only_adds sha (call_world c) (call_config c)
           (call_path c) (call_source c) st).
Qed.

End PipelineRetries.

(** X8: once a call of [process_file] has got as far as the duplicate check
    for a file -- whether it then kept, rejected or failed on it -- every
    later call on a file with the same perceptual hash returns [None] and
    stores and writes nothing, whatever calls come in between (threshold
    not negative).  A file whose processing failed after the duplicate
    check is thus never processed again by the same engine. *)
Theorem attempted_file_is_never_retried
    (sha : list N -> string)
    (w1 : Pipeline.world) (cfg : IngestConfig.MediaIngestConfig)
    (p1 : Pipeline.Path) (src1 : string) (st0 : Pipeline.state)
    (bytes : list N) (pil : Pipeline.image) (cv : option Pipeline.image)
    (h : Curation.PerceptualHash) (between : list Pipeline.call)
    (w2 : Pipeline.world) (p2 : Pipeline.Path) (src2 : string) :
  0 <= IngestConfig.duplicate_hamming_threshold cfg ->
  Pipeline.read_bytes w1 p1 = Ok bytes ->
  Pipeline.select_error w1 = None ->
  Pipeline.db st0 !! sha bytes = None ->
  Pipeline.image_open w1 p1 = Ok pil ->
  Pipeline.imread w1 p1 = Ok cv ->
  Pipeline.perceptual_hash w1 p1 = Ok h ->
  Pipeline.perceptual_hash w2 p2 = Ok h ->
  let st1 := snd (Pipeline.process_file sha w1 cfg p1 src1 st0) in
  let st2 := Pipeline.run_calls sha between st1 in
  exists st3,
    Pipeline.process_file sha w2 cfg p2 src2 st2 = (Ok None, st3)
    /\ Pipeline.db st3 = Pipeline.db st2
    /\ Pipeline.written st3 = Pipeline.written st2.
Proof.
  intros Ht Hread Hsel Hfresh Hopen Himread Hhash Hhash2 st1 st2.
  destruct (process_file_registers sha w1 cfg p1 src1 st0 bytes pil cv h
              Ht Hread Hsel Hfresh Hopen Himread Hhash) as (s & Hs & Hd).
  apply (process_file_covered sha w2 cfg p2 src2 st2 h s Hhash2); [|exact Hd].
  apply (run_calls_seen_grows sha between st1). exact Hs.
Qed.

Lemma attempted_file_is_never_retried_witness :
  let failed :=
    Pipeline.process_file Pipeline.toy_digest PipelineSamples.disk_full
      Pipeline.blur_off Pipeline.door "nas" Pipeline.empty_state in
  fst failed = Ok None
  /\ fst (Pipeline.process_file Pipeline.toy_digest Pipeline.studio
            Pipeline.blur_off Pipeline.door "nas" Pipeline.empty_state)
     = Ok (Some PipelineSamples.door_out)
  /\ fst (Pipeline.process_file Pipeline.toy_digest Pipeline.studio
            Pipeline.blur_off Pipeline.door "nas" (snd failed))
     = Ok None.
Proof.
  intros failed. split; [reflexivity|]. split; [reflexivity|].
  destruct (attempted_file_is_never_retried Pipeline.toy_digest
              PipelineSamples.disk_full Pipeline.blur_off Pipeline.door "nas"
              Pipeline.empty_state [1; 2; 3]%N [10; 20; 30]%N
              (Some [30; 20; 10]%N)
              [Curation.x0; Curation.xf; Curation.x3; Curation.xc] []
              Pipeline.studio Pipeline.door "nas")
    as (st3 & Hrun & _);
    [simpl; lia | reflexivity .. | ].
  simpl in Hrun. unfold failed. rewrite Hrun. reflexivity.
Defined.





(** ** The reprocess command *)

Section CliFacts.
Import IngestConfig Curation Pipeline.

Variable sha : list N -> string.

Lemma submit_all_processed (w : world) (cfg : MediaIngestConfig)
    (src : string) (paths : list Path) :
  forall st,
    (forall f, In f paths ->
       exists bytes, read_bytes w f = Ok bytes
                     /\ is_Some (db st !! sha bytes)) ->
    let run := submit_all sha w cfg paths src st in
    fst run = repeat (Ok None) (length paths)
    /\ db (snd run) = db st /\ written (snd run) = written st
    /\ seen_hashes (snd run) = seen_hashes st.
Proof.
  induction paths as [|p paths IH]; intros st Hall; simpl.
  - repeat split; reflexivity.
  - destruct (Hall p (or_introl eq_refl)) as (bytes & Hread & Hin).
    destruct (process_file_already_processed sha w cfg p src st bytes
                Hread Hin) as (st1 & Hrun & Hdb & Hwr & Hseen).
    rewrite Hrun.
    destruct (IH st1) as (Hfst & Hdb' & Hwr' & Hseen').
    { intros f Hf. destruct (Hall f (or_intror Hf)) as (b & Hb & Hb').
      exists b. split; [exact Hb|]. rewrite Hdb. exact Hb'. }
    destruct (submit_all sha w cfg paths src st1) as [rs st2].
    simpl in *. subst rs.
    repeat split; congruence.
Qed.

Lemma outputs_of_skipped (n : nat) : outputs_of (repeat (Ok None) n) = [].
Proof. induction n; simpl; [reflexivity | exact IHn]. Qed.

End CliFacts.

(** X11: [cmd_reprocess] cannot reprocess: when every matched image file is
    one whose sha256 is already in the table, the command reports the
    number of files found and zero files reprocessed, and the table, the
    written files and the registered hashes are as before. *)
Theorem reprocess_skips_processed_files
    (sha : list N -> string) (w : Pipeline.world)
    (cfg : IngestConfig.MediaIngestConfig) (globbed : list Pipeline.Path)
    (src : string) (st : Pipeline.state) :
  0 < IngestConfig.concurrency cfg ->
  (forall f, In f globbed -> Cli.is_image_file f = true ->
     exists bytes, Pipeline.read_bytes w f = Ok bytes
                   /\ is_Some (Pipeline.db st !! sha bytes)) ->
  exists st',
    Cli.cmd_reprocess sha w cfg globbed src st
    = (Ok (length (List.filter Cli.is_image_file globbed), []), st')
    /\ Pipeline.db st' = Pipeline.db st
    /\ Pipeline.written st' = Pipeline.written st
    /\ Pipeline.seen_hashes st' = Pipeline.seen_hashes st.
Proof.
  intros Hworkers Hall.
  unfold Cli.cmd_reprocess, Py.bind, Pipeline.process_batch,
    Pipeline.workers.
  assert (H : (IngestConfig.concurrency cfg <=? 0) = false)
    by (apply Z.leb_gt; exact Hworkers).
  rewrite H.
  destruct (submit_all_processed sha w cfg src
              (List.filter Cli.is_image_file globbed) st)
    as (Hfst & Hdb & Hwr & Hseen).
  { intros f Hf. apply filter_In in Hf. destruct Hf as [Hin Himg].
    apply Hall; assumption. }
  destruct (Pipeline.submit_all sha w cfg
              (List.filter Cli.is_image_file globbed) src st)
    as [futures st1] eqn:Hsub.
  simpl in Hfst, Hdb, Hwr, Hseen.
  rewrite collect_ok.
  - rewrite Hfst, outputs_of_skipped. simpl.
    exists st1. repeat split; assumption.
  - rewrite Hfst. apply Forall_forall. intros x Hx.
    apply list_elem_of_In, repeat_spec in Hx. subst x. reflexivity.
Qed.

Lemma reprocess_skips_processed_files_witness :
  let st1 :=
    snd (Pipeline.process_file Pipeline.toy_digest Pipeline.studio
           Pipeline.blur_off Pipeline.door "nas" Pipeline.empty_state) in
  let notes := {| Pipeline.parent := "/nas/photos"; Pipeline.stem := "notes";
                  Pipeline.suffix := ".txt" |} in
  exists st',
    Cli.cmd_reprocess Pipeline.toy_digest Pipeline.studio Pipeline.blur_off
      [Pipeline.door; notes; Pipeline.door_copy] "reprocess" st1
    = (Ok (2%nat, []), st').
Proof.
  intros st1 notes.
  destruct (reprocess_skips_processed_files Pipeline.toy_digest
              Pipeline.studio Pipeline.blur_off
              [Pipeline.door; notes; Pipeline.door_copy] "reprocess" st1)
    as (st' & Hrun & _).
  - simpl. lia.
  - intros f Hf Himg. exists [1; 2; 3]%N.
    destruct Hf as [<- | [<- | [<- | []]]];
      [ | discriminate Himg | ];
      (split; [reflexivity | eexists; reflexivity]).
  - exists st'. exact Hrun.
Defined.

(** ** The unique output name *)

Section OutputPathFacts.
Import OutputPath.

Lemma length_append (s t : string) :
  String.length (s +:+ t) = (String.length s + String.length t)%nat.
Proof.
  induction s as [|c s IH]; [reflexivity|].
  change (String c s +:+ t) with (String c (s +:+ t)).
  simpl. rewrite IH. reflexivity.
Qed.

Lemma append_inj_r (t : string) :
  forall s1 s2 : string, s1 +:+ t = s2 +:+ t -> s1 = s2.
Proof.
  induction s1 as [|c1 s1 IH]; intros [|c2 s2] H.
  - reflexivity.
  - exfalso. apply (f_equal String.length) in H.
    rewrite !length_append in H. simpl in H. lia.
  - exfalso. apply (f_equal String.length) in H.
    rewrite !length_append in H. simpl in H. lia.
  - change (String c1 (s1 +:+ t) = String c2 (s2 +:+ t)) in H.
    injection H as -> H. f_equal. apply IH. exact H.
Qed.

Lemma numbered_inj (stem ext : string) (j k : nat) :
  numbered stem ext j = numbered stem ext k -> j = k.
Proof.
  unfold numbered. intros H.
  apply String.app_inj in H. apply (String.app_inj "_") in H.
  apply append_inj_r in H. apply (inj pretty) in H. exact H.
Qed.

Lemma numbered_not_plain (stem ext : string) (k : nat) :
  numbered stem ext k <> stem +:+ ext.
Proof.
  unfold numbered. intros H. apply String.app_inj in H.
  apply (f_equal String.length) in H.
  rewrite !length_append in H. simpl in H. lia.
Qed.

(** What the loop returns is free, and is the name it started from or a
    numbered name from the counter on. *)
Lemma find_unique_sound (taken : gset string) (stem ext : string)
    (fuel : nat) :
  forall base counter name,
    find_unique fuel taken stem ext base counter = Some name ->
    (name ∉ taken)
    /\ (name = base
        \/ exists k, (counter <= k)%nat /\ name = numbered stem ext k).
Proof.
  induction fuel as [|fuel IH]; intros base counter name H; simpl in H;
    [discriminate|].
  destruct (bool_decide (base ∈ taken)) eqn:E.
  - destruct (IH _ _ _ H) as [Hfree [-> | (k & Hk & ->)]].
    + split; [exact Hfree|]. right. exists counter. split; [lia | reflexivity].
    + split; [exact Hfree|]. right. exists k. split; [lia | reflexivity].
  - injection H as <-. apply bool_decide_eq_false in E.
    split; [exact E | left; reflexivity].
Qed.

(** A name the loop will not try again may as well not exist. *)
Lemma find_unique_forget (taken : gset string) (stem ext x : string)
    (fuel : nat) :
  forall base counter,
    x <> base ->
    (forall k, (counter <= k)%nat -> numbered stem ext k <> x) ->
    find_unique fuel taken stem ext base counter
    = find_unique fuel (taken ∖ {[x]}) stem ext base counter.
Proof.
  induction fuel as [|fuel IH]; intros base counter Hne Hlater; simpl;
    [reflexivity|].
  assert (Hsame : bool_decide (base ∈ taken)
                  = bool_decide (base ∈ taken ∖ {[x]})).
  { apply bool_decide_ext. rewrite elem_of_difference, elem_of_singleton.
    split; [intros H; split; [exact H | congruence] | tauto]. }
  rewrite <- Hsame. destruct (bool_decide (base ∈ taken)); [|reflexivity].
  apply IH.
  - intros ->. apply (Hlater counter); [lia | reflexivity].
  - intros k Hk. apply Hlater. lia.
Qed.

Lemma find_unique_terminates (stem ext : string) (n : nat) :
  forall (taken : gset string) (fuel : nat) base counter,
    (size taken <= n)%nat -> (n < fuel)%nat ->
    (forall k, (counter <= k)%nat -> numbered stem ext k <> base) ->
    exists name, find_unique fuel taken stem ext base counter = Some name.
Proof.
  induction n as [|n IH]; intros taken fuel base counter Hsize Hfuel Hdist;
    (destruct fuel as [|fuel]; [lia|]); simpl.
  - destruct (bool_decide (base ∈ taken)) eqn:E; [|eexists; reflexivity].
    apply bool_decide_eq_true in E. exfalso.
    assert (Hone : (size ({[base]} : gset string) <= size taken)%nat)
      by (apply subseteq_size, singleton_subseteq_l; exact E).
    rewrite size_singleton in Hone. lia.
  - destruct (bool_decide (base ∈ taken)) eqn:E; [|eexists; reflexivity].
    apply bool_decide_eq_true in E.
    rewrite (find_unique_forget taken stem ext base).
    + apply IH.
      * rewrite size_difference by (apply singleton_subseteq_l; exact E).
        rewrite size_singleton. lia.
      * lia.
      * intros k Hk Heq. apply numbered_inj in Heq. lia.
    + intros Heq. apply (Hdist counter); [lia | congruence].
    + intros k Hk. apply Hdist. lia.
Qed.

End OutputPathFacts.

(** X12: the search for a unique file name always ends, after at most one
    more test than there are names in the directory; the name it returns
    does not exist there; it is [stem + ext] itself when that is free, and
    otherwise a name [stem_k + ext] with [k >= 1]. *)
Theorem unique_filename_is_free
    (taken : gset string) (stem ext : string) (fuel : nat) :
  (size taken < fuel)%nat ->
  exists name,
    OutputPath.unique_filename fuel taken stem ext = Some name
    /\ (name ∉ taken)
    /\ ((stem +:+ ext) ∉ taken -> name = stem +:+ ext)
    /\ (name = stem +:+ ext
        \/ exists k, (1 <= k)%nat /\ name = OutputPath.numbered stem ext k).
Proof.
  intros Hfuel. unfold OutputPath.unique_filename.
  destruct (find_unique_terminates stem ext (size taken) taken fuel
              (stem +:+ ext) 1%nat) as [name Hname];
    [lia | exact Hfuel | intros k _; apply numbered_not_plain |].
  exists name. split; [exact Hname|].
  destruct (find_unique_sound taken stem ext fuel _ _ _ Hname)
    as [Hfree Hshape].
  split; [exact Hfree|]. split; [|exact Hshape].
  intros Hplain. destruct fuel as [|fuel]; [lia|]. simpl in Hname.
  rewrite bool_decide_eq_false_2 in Hname by exact Hplain.
  injection Hname as <-. reflexivity.
Qed.

Lemma unique_filename_is_free_witness :
  OutputPath.unique_filename 3
    {["door.jpg"; "door_1.jpg"]} "door" ".jpg" = Some "door_2.jpg"
  /\ "door_2.jpg" ∉ ({["door.jpg"; "door_1.jpg"]} : gset string).
Proof.
  destruct (unique_filename_is_free {["door.jpg"; "door_1.jpg"]}
              "door" ".jpg" 3) as (name & Hname & Hfree & _).
  - rewrite size_union by (apply disjoint_singleton_l;
                           rewrite elem_of_singleton; discriminate).
    rewrite !size_singleton. lia.
  - assert (Hcomputed : OutputPath.unique_filename 3
              {["door.jpg"; "door_1.jpg"]} "door" ".jpg" = Some "door_2.jpg")
      by (vm_compute; reflexivity).
    rewrite Hcomputed in Hname. injection Hname as <-.
    split; [reflexivity | exact Hfree].
Defined.

(** ** The generator: failures, cleanup and the module-level instance *)

(** X13: a generation that fails caches nothing: when the pipeline raises,
    [generate_background] logs the failure and re-raises with the cache as
    it was, so the next call with the same tuple runs the pipeline again
    and, if that succeeds, returns and stores the new image without
    reporting a cache hit. *)
Theorem failed_generation_is_not_cached
    (run1 run2 : Generate.cache_key -> result Generate.ndarray)
    (prompt negative : string) (width height steps : Z) (scale : Qc)
    (seed : option Z) (self : Generate.SDXLGenerator) (e : exn)
    (img : Generate.ndarray) :
  let key := (prompt, negative, width, height, steps, scale, seed) in
  Generate.is_available self = true ->
  Generate._cache self !! key = None ->
  run1 key = Raise e ->
  run2 key = Ok img ->
  let first :=
    Generate.generate_background run1 prompt negative width height steps
      scale seed self in
  let second :=
    Generate.generate_background run2 prompt negative width height steps
      scale seed (snd first) in
  fst first = Raise e
  /\ Generate._cache (snd first) = Generate._cache self
  /\ Generate.log (snd first) =
       Generate.log_failed e
       :: Generate.log_generating prompt width height steps
       :: Generate.log self
  /\ fst second = Ok img
  /\ Generate.cache_hit (snd first) (snd second) = false
  /\ Generate._cache (snd second) !! key = Some img.
Proof.
  intros key Havail Hout Hrun1 Hrun2 first second.
  assert (Hfirst : first =
    (Raise e,
     {| Generate.pipeline_loaded := Generate.pipeline_loaded self;
        Generate._cache := Generate._cache self;
        Generate.log := Generate.log_failed e
                        :: Generate.log_generating prompt width height steps
                        :: Generate.log self |})).
  { unfold first, Generate.generate_background, Py.try_except.
    rewrite Havail. simpl. fold key. rewrite Hout.
    unfold Py.bind, Generate.log_info, Py.lift, Py.raise. simpl.
    fold key. rewrite Hrun1. reflexivity. }
  assert (Hsecond : second = _) by
    exact (generate_background_miss run2 prompt negative width height steps
             scale seed (snd first) img
             ltac:(rewrite Hfirst; exact Havail)
             ltac:(rewrite Hfirst; exact Hout) Hrun2).
  rewrite Hfirst. repeat split; try reflexivity.
  - rewrite Hfirst in Hsecond. rewrite Hsecond. reflexivity.
  - unfold Generate.cache_hit.
    rewrite (logged_new [Generate.log_complete;
                         Generate.log_generating prompt width height steps]);
      [reflexivity | rewrite Hsecond, Hfirst; reflexivity].
  - rewrite Hsecond. simpl. apply lookup_insert_eq.
Qed.

Lemma failed_generation_is_not_cached_witness :
  let fresh := {| Generate.pipeline_loaded := true; Generate._cache := ∅;
                  Generate.log := [] |} in
  let broken : Generate.cache_key -> result Generate.ndarray :=
    fun _ => Raise (RuntimeError "CUDA out of memory") in
  let paints : Generate.cache_key -> result Generate.ndarray :=
    fun _ => Ok [12; 200; 7]%N in
  let first :=
    Generate.generate_background broken "a" "" 512 512 20 (Q2Qc (15 # 2))
      (Some 1) fresh in
  let second :=
    Generate.generate_background paints "a" "" 512 512 20 (Q2Qc (15 # 2))
      (Some 1) (snd first) in
  fst first = Raise (RuntimeError "CUDA out of memory")
  /\ Generate._cache (snd first) = ∅
  /\ fst second = Ok [12; 200; 7]%N
  /\ Generate.cache_hit (snd first) (snd second) = false.
Proof.
  intros fresh broken paints first second.
  destruct (failed_generation_is_not_cached broken paints "a" "" 512 512 20
              (Q2Qc (15 # 2)) (Some 1) fresh
              (RuntimeError "CUDA out of memory") [12; 200; 7]%N)
    as (H1 & H2 & _ & H4 & H5 & _); try reflexivity.
  repeat split; assumption.
Defined.

Section GeneratorLifeCycle.
Import Generate GenerateModule.

Lemma call_unavailable (r : request) (self : SDXLGenerator) :
  pipeline_loaded self = false ->
  call r self = (Raise (RuntimeError "SDXL pipeline not available"), self).
Proof.
  intros Hoff. unfold call.
  destruct (rq_key r) as [[[[[[prompt negative] width] height] steps] scale] seed].
  unfold generate_background, is_available. rewrite Hoff. reflexivity.
Qed.

Lemma call_all_unavailable (rs : list request) (self : SDXLGenerator) :
  pipeline_loaded self = false -> call_all rs self = self.
Proof.
  intros Hoff. induction rs as [|r rest IH]; simpl; [reflexivity|].
  rewrite (call_unavailable r self Hoff). exact IH.
Qed.

(** What one call of [generate_background_sdxl] does to the module. *)
Lemma run_call_step (c : sdxl_call) (m : module_state) :
  match _sdxl_generator m with
  | Some g =>
      _sdxl_generator (snd (run_call c m))
        = Some (snd (call (sc_request c) g))
      /\ constructed (snd (run_call c m)) = constructed m
      /\ load_log (snd (run_call c m)) = load_log m
  | None =>
      match sc_from_pretrained c with
      | Ok _ =>
          is_Some (_sdxl_generator (snd (run_call c m)))
          /\ constructed (snd (run_call c m)) = S (constructed m)
      | Raise e =>
          fst (run_call c m) = Raise e
          /\ _sdxl_generator (snd (run_call c m)) = None
          /\ constructed (snd (run_call c m)) = constructed m
      end
  end.
Proof.
  unfold run_call, call.
  destruct (rq_key (sc_request c))
    as [[[[[[prompt negative] width] height] steps] scale] seed].
  unfold generate_background_sdxl, get_sdxl_generator, bind.
  destruct (_sdxl_generator m) as [g|] eqn:Hg.
  - destruct (generate_background _ _ _ _ _ _ _ _ g) as [r g'] eqn:Hcall.
    simpl. repeat split.
  - unfold new_generator, set_generator, ret.
    destruct (sc_from_pretrained c) as [[]|e]; simpl.
    + destruct (generate_background _ _ _ _ _ _ _ _ _) as [r g'].
      simpl. split; [eexists; reflexivity | reflexivity].
    + rewrite Hg. repeat split.
Qed.

Lemma run_calls_loaded (cs : list sdxl_call) :
  forall m g,
    _sdxl_generator m = Some g ->
    _sdxl_generator (run_calls cs m)
      = Some (call_all (map sc_request cs) g)
    /\ constructed (run_calls cs m) = constructed m.
Proof.
  induction cs as [|c rest IH]; intros m g Hg; simpl.
  - split; [exact Hg | reflexivity].
  - pose proof (run_call_step c m) as Hstep. rewrite Hg in Hstep.
    destruct Hstep as (Hg' & Hn & _).
    destruct (IH _ _ Hg') as (IH1 & IH2).
    split; [exact IH1 | rewrite IH2; exact Hn].
Qed.

End GeneratorLifeCycle.

(** X14: [cleanup] unloads the pipeline but leaves the cache as it is, and
    from then on every call of [generate_background] raises the
    "not available" error before the cache is looked at: whatever calls
    follow, the generator stays as [cleanup] left it, so an image that was
    cached is not served any more. *)
Theorem cleanup_disables_even_cached_requests
    (self : Generate.SDXLGenerator) (r : Generate.request)
    (rs : list Generate.request) :
  Generate._cache (Generate.cleanup self) = Generate._cache self
  /\ Generate.call r (Generate.call_all rs (Generate.cleanup self))
     = (Raise (RuntimeError "SDXL pipeline not available"),
        Generate.cleanup self).
Proof.
  split; [reflexivity|].
  rewrite call_all_unavailable by reflexivity.
  apply call_unavailable. reflexivity.
Qed.

(** X15: the module keeps at most one generator.  Starting with none,
    after any sequence of calls of [generate_background_sdxl] at most one
    construction has completed; the global is still unset exactly when
    the model load failed in every call so far, so a failed load is tried
    again by the next call and a successful one is never repeated. *)
Theorem sdxl_generator_is_built_at_most_once
    (cs : list GenerateModule.sdxl_call) :
  let m := GenerateModule.run_calls cs GenerateModule.unloaded in
  (GenerateModule.constructed m <= 1)%nat
  /\ (GenerateModule._sdxl_generator m = None
      <-> GenerateModule.constructed m = 0%nat)
  /\ (GenerateModule._sdxl_generator m = None
      <-> Forall (fun c =>
                    is_ok (GenerateModule.sc_from_pretrained c) = false) cs).
Proof.
  assert (Hgen : forall cs m,
    GenerateModule._sdxl_generator m = None ->
    GenerateModule.constructed m = 0%nat ->
    let m' := GenerateModule.run_calls cs m in
    (GenerateModule.constructed m' <= 1)%nat
    /\ (GenerateModule._sdxl_generator m' = None
        <-> GenerateModule.constructed m' = 0%nat)
    /\ (GenerateModule._sdxl_generator m' = None
        <-> Forall (fun c =>
              is_ok (GenerateModule.sc_from_pretrained c) = false) cs)).
  { clear cs. induction cs as [|c rest IH]; intros m Hnone Hzero; simpl.
    - rewrite Hnone, Hzero. repeat split; auto.
    - pose proof (run_call_step c m) as Hstep. rewrite Hnone in Hstep.
      destruct (GenerateModule.sc_from_pretrained c) as [u|e] eqn:Hload.
      + destruct Hstep as ([g Hg] & Hn).
        destruct (run_calls_loaded rest _ _ Hg) as (Hg' & Hn').
        rewrite Hg', Hn', Hn, Hzero.
        split; [lia|]. split; split; try discriminate.
        intros Hall. apply Forall_cons in Hall as [Hc _].
        rewrite Hload in Hc. discriminate.
      + destruct Hstep as (_ & Hg & Hn).
        rewrite Hzero in Hn.
        destruct (IH _ Hg Hn) as (IH1 & IH2 & IH3).
        split; [exact IH1|]. split; [exact IH2|].
        rewrite IH3. split.
        * intros Hall. apply Forall_cons. split; [|exact Hall].
          rewrite Hload. reflexivity.
        * intros Hall. apply Forall_cons in Hall as [_ Hall]. exact Hall. }
  intros m. apply Hgen; reflexivity.
Qed.

(** ** Polling: termination, request budget and outcome *)

Section RunwayPolling.
Import Runway.

Variable network : nat -> exchange.
Variable start_time : Q.
Variable max_wait_time : Z.

(** The three ways an iteration can go. *)
Lemma poll_iteration_cases (st : poll_state) :
  match poll_iteration network start_time max_wait_time st with
  | stop r st' =>
      (st' = st /\ r = Raise timeout_error
       /\ ~ (now st - start_time < inject_Z max_wait_time)%Q)
      \/ (st' = after_request (network (sent st)) st
          /\ r <> Raise timeout_error
          /\ keeps_polling (answer (network (sent st))) = false
          /\ forall body, r = Ok body ->
               answer (network (sent st)) = http 200 body
               /\ status body = Some "SUCCEEDED")
  | continue st' =>
      exists d : Q,
        (2 <= d)%Q
        /\ st' = sleep d (after_request (network (sent st)) st)
        /\ keeps_polling (answer (network (sent st))) = true
  end.
Proof.
  unfold poll_iteration.
  destruct (Qltb _ _) eqn:Htime.
  2:{ left. split; [reflexivity|]. split; [reflexivity|].
      intros H. apply Qltb_lt in H. rewrite H in Htime. discriminate. }
  destruct (answer (network (sent st))) as [code body|msg] eqn:Hans.
  2:{ exists 5%Q. split; [lra|]. split; reflexivity. }
  cbn [keeps_polling].
  destruct (code =? 200) eqn:Hcode; cbn [negb andb].
  2:{ right. split; [reflexivity|]. split; [discriminate|].
      split; [reflexivity | discriminate]. }
  apply Z.eqb_eq in Hcode. subst code.
  destruct (status body) as [s|] eqn:Hs.
  2:{ exists 2%Q. split; [lra|]. split; reflexivity. }
  destruct (String.eqb s "SUCCEEDED") eqn:Hsucc.
  { right. apply String.eqb_eq in Hsucc. subst s.
    split; [reflexivity|]. split; [discriminate|]. split; [reflexivity|].
    intros body' H. injection H as <-. split; [reflexivity | exact Hs]. }
  destruct (String.eqb s "FAILED") eqn:Hfail.
  { right. split; [reflexivity|]. split; [discriminate|].
    split; [reflexivity | discriminate]. }
  cbn [negb orb].
  destruct (_ || _); exists 2%Q; (split; [lra|]); split; reflexivity.
Qed.

(** With non-negative latencies the loop ends after at most [n]
    requests when at most [2 * n] seconds of the budget are left. *)
Lemma poll_loop_ends (n : nat) :
  forall st : poll_state,
    (forall i, (0 <= latency (network i))%Q) ->
    (inject_Z max_wait_time - (now st - start_time)
     <= 2 * inject_Z (Z.of_nat n))%Q ->
    forall fuel, (n < fuel)%nat ->
      exists r st',
        poll_loop fuel network start_time max_wait_time st = Some (r, st')
        /\ (sent st' <= sent st + n)%nat.
Proof.
  induction n as [|n IH]; intros st Hlat Hleft fuel Hfuel;
    (destruct fuel as [|fuel]; [lia|]); simpl.
  - rewrite poll_iteration_expired.
    + eexists _, _. split; [reflexivity | lia].
    + change (inject_Z (Z.of_nat 0)) with 0%Q in Hleft. intros H. lra.
  - pose proof (poll_iteration_cases st) as Hcase.
    destruct (poll_iteration network start_time max_wait_time st)
      as [st1 | r st1].
    + destruct Hcase as (d & Hd & -> & _).
      destruct (IH (sleep d (after_request (network (sent st)) st)) Hlat)
        with (fuel := fuel) as (r & st' & Hrun & Hsent); [| lia |].
      * cbn [now sleep after_request]. specialize (Hlat (sent st)).
        rewrite Nat2Z.inj_succ in Hleft. unfold Z.succ in Hleft.
        rewrite inject_Z_plus in Hleft.
        change (inject_Z 1) with 1%Q in Hleft. lra.
      * exists r, st'. split; [exact Hrun|].
        cbn [sent sleep after_request] in Hsent. lia.
    + exists r, st1. split; [reflexivity|].
      destruct Hcase as [(-> & _) | (-> & _)];
        cbn [sent after_request]; lia.
Qed.

(** What a finished loop says about the replies it received. *)
Lemma poll_loop_sound (fuel : nat) :
  forall (st : poll_state) r st',
    poll_loop fuel network start_time max_wait_time st = Some (r, st') ->
    (sent st <= sent st')%nat
    /\ (forall body, r = Ok body ->
          status body = Some "SUCCEEDED"
          /\ exists j, sent st' = S j /\ (sent st <= j)%nat
                       /\ answer (network j) = http 200 body)
    /\ (forall i, (sent st <= i)%nat -> (S i < sent st')%nat ->
          keeps_polling (answer (network i)) = true)
    /\ (r = Raise timeout_error ->
        forall i, (sent st <= i)%nat -> (i < sent st')%nat ->
          keeps_polling (answer (network i)) = true).
Proof.
  induction fuel as [|fuel IH]; intros st r st' Hrun; [discriminate|].
  simpl in Hrun.
  pose proof (poll_iteration_cases st) as Hcase.
  destruct (poll_iteration network start_time max_wait_time st)
    as [st1 | r1 st1].
  - destruct Hcase as (d & _ & -> & Hkeep).
    destruct (IH _ _ _ Hrun) as (Hle & Hok & Hearlier & Htimeout).
    cbn [sent sleep after_request] in Hle, Hok, Hearlier, Htimeout.
    split; [lia|]. split; [|split].
    + intros body Hr. destruct (Hok body Hr) as (Hs & j & Hj & Hlej & Hans).
      split; [exact Hs|]. exists j. repeat split; [exact Hj | lia | exact Hans].
    + intros i Hi Hlt. destruct (Nat.eq_dec i (sent st)) as [-> | Hne];
        [exact Hkeep | apply Hearlier; lia].
    + intros Hr i Hi Hlt. destruct (Nat.eq_dec i (sent st)) as [-> | Hne];
        [exact Hkeep | apply Htimeout; [exact Hr | lia | exact Hlt]].
  - injection Hrun as <- <-.
    destruct Hcase as [(-> & -> & _) | (-> & Hnot & _ & Hok)];
      cbn [sent after_request].
    + split; [lia|]. split; [discriminate|]. split; intros; lia.
    + split; [lia|]. split; [|split].
      * intros body Hr. destruct (Hok body Hr) as (Hans & Hs).
        split; [exact Hs|]. exists (sent st). repeat split; [lia | exact Hans].
      * intros; lia.
      * intros Hr. contradiction.
Qed.

End RunwayPolling.

(** X16: with non-negative request latencies [_poll_task_status] always
    returns or raises, whatever the replies are, and it sends at most
    [ceil(max_wait_time / 2)] requests ([150] for the default of 300
    seconds); with a budget of zero or less it sends none and raises
    [TimeoutError] at once. *)
Theorem poll_task_status_request_budget
    (network : nat -> Runway.exchange) (max_wait_time : Z)
    (st : Runway.poll_state) (fuel : nat) :
  (forall i, (0 <= Runway.latency (network i))%Q) ->
  (Runway.enough_fuel max_wait_time <= fuel)%nat ->
  exists r st',
    Runway._poll_task_status fuel network max_wait_time st = Some (r, st')
    /\ (Runway.sent st <= Runway.sent st')%nat
    /\ (Z.of_nat (Runway.sent st' - Runway.sent st)
        <= Z.max 0 ((max_wait_time + 1) / 2))
    /\ (max_wait_time <= 0 -> r = Raise Runway.timeout_error /\ st' = st).
Proof.
  intros Hlat Hfuel. unfold Runway._poll_task_status.
  set (n := Z.to_nat ((max_wait_time + 1) / 2)).
  pose proof (Z.div_mod (max_wait_time + 1) 2 ltac:(lia)) as Hdiv.
  pose proof (Z.mod_pos_bound (max_wait_time + 1) 2 ltac:(lia)) as Hmod.
  assert (Hn : max_wait_time <= 2 * Z.of_nat n) by (unfold n; lia).
  destruct (poll_loop_ends network (Runway.now st) max_wait_time n st Hlat)
    with (fuel := fuel) as (r & st' & Hrun & Hsent).
  - rewrite Zle_Qle, inject_Z_mult in Hn.
    change (inject_Z 2) with 2%Q in Hn. lra.
  - unfold Runway.enough_fuel in Hfuel. unfold n. lia.
  - exists r, st'. split; [exact Hrun|].
    destruct (poll_loop_sound network (Runway.now st) max_wait_time fuel
                st r st' Hrun) as (Hle & _).
    split; [exact Hle|]. split.
    + unfold n in Hsent. lia.
    + intros Hzero. destruct fuel as [|fuel];
        [unfold Runway.enough_fuel in Hfuel; lia|].
      simpl in Hrun. rewrite poll_iteration_expired in Hrun.
      * injection Hrun as <- <-. split; reflexivity.
      * assert (Hq : (inject_Z max_wait_time <= 0)%Q).
        { change 0%Q with (inject_Z 0). rewrite <- Zle_Qle. exact Hzero. }
        intros H. lra.
Qed.

Lemma poll_task_status_request_budget_witness :
  let pending :=
    {| Runway.latency := 1 # 2;
       Runway.answer :=
         Runway.http 200
           {| Runway.status := Some "PENDING"; Runway.failure_reason := None;
              Runway.output_image := None |} |} in
  let st0 := {| Runway.now := 0; Runway.sent := 0; Runway.slept := [] |} in
  exists r st',
    Runway._poll_task_status 6 (fun _ => pending) 4 st0 = Some (r, st')
    /\ Z.of_nat (Runway.sent st' - 0) <= 2.
Proof.
  intros pending st0.
  destruct (poll_task_status_request_budget (fun _ => pending) 4 st0 6)
    as (r & st' & Hrun & _ & Hsent & _).
  - intros i. simpl. discriminate.
  - vm_compute. lia.
  - exists r, st'. split; [exact Hrun | exact Hsent].
Defined.

(** X17: what [_poll_task_status] returns is the body of the last reply
    it received, and that reply was an HTTP 200 with status [SUCCEEDED];
    every reply before the last was one that keeps the loop polling; and
    when the call ends in [TimeoutError], every reply it received was. *)
Theorem poll_task_status_returns_last_reply
    (network : nat -> Runway.exchange) (max_wait_time : Z)
    (st st' : Runway.poll_state) (fuel : nat) (r : result Runway.task) :
  Runway._poll_task_status fuel network max_wait_time st = Some (r, st') ->
  (forall body, r = Ok body ->
     Runway.status body = Some "SUCCEEDED"
     /\ exists j, Runway.sent st' = S j /\ (Runway.sent st <= j)%nat
                  /\ Runway.answer (network j) = Runway.http 200 body)
  /\ (forall i, (Runway.sent st <= i)%nat -> (S i < Runway.sent st')%nat ->
        Runway.keeps_polling (Runway.answer (network i)) = true)
  /\ (r = Raise Runway.timeout_error ->
      forall i, (Runway.sent st <= i)%nat -> (i < Runway.sent st')%nat ->
        Runway.keeps_polling (Runway.answer (network i)) = true).
Proof.
  intros Hrun.
  exact (proj2 (poll_loop_sound network (Runway.now st) max_wait_time fuel
                  st r st' Hrun)).
Qed.

Lemma poll_task_status_returns_last_reply_witness :
  let done :=
    {| Runway.status := Some "SUCCEEDED"; Runway.failure_reason := None;
       Runway.output_image := Some "aGVsbG8=" |} in
  let replies := fun i : nat =>
    match i with
    | O => {| Runway.latency := 1 # 2;
              Runway.answer :=
                Runway.http 200
                  {| Runway.status := Some "RUNNING";
                     Runway.failure_reason := None;
                     Runway.output_image := None |} |}
    | _ => {| Runway.latency := 1 # 4;
              Runway.answer := Runway.http 200 done |}
    end in
  let st0 := {| Runway.now := 0; Runway.sent := 0; Runway.slept := [] |} in
  let st2 := {| Runway.now := 11 # 4; Runway.sent := 2;
                Runway.slept := [2%Q] |} in
  Runway.keeps_polling (Runway.answer (replies 0%nat)) = true
  /\ exists j, Runway.sent st2 = S j
               /\ Runway.answer (replies j) = Runway.http 200 done.
Proof.
  intros done replies st0 st2.
  destruct (poll_task_status_returns_last_reply replies 300 st0
              {| Runway.now := 0 + (1 # 2) + 2 + (1 # 4); Runway.sent := 2;
                 Runway.slept := [2%Q] |} 2 (Ok done))
    as (Hok & Hearlier & _); [reflexivity|].
  split.
  - apply Hearlier; simpl; lia.
  - destruct (Hok done eq_refl) as (_ & j & Hj & _ & Hans).
    exists j. split; [exact Hj | exact Hans].
Defined.

(** ** The replace handler: token, errors, size limit and the remote path *)

Section HandlerFacts.
Import Generate Service.

Lemma as_http_is_http (e : exn) :
  exists status_code detail, as_http e = HTTPException status_code detail.
Proof. destruct e; simpl; eexists _, _; reflexivity. Qed.

(** The handler is the token, then the checks, then [generate], then
    [finish]; the server it leaves is the one [generate] left, or the
    one with the token taken when [generate] was not reached. *)
Lemma replace_background_shape (adapter : list string) (cfg : settings)
    (rq : request) (now : Q) (s : server) :
  let run := replace_background_with adapter cfg rq now s in
  let gen := generate adapter cfg rq (max_dim rq) (admitted now s) in
  (exists e, fst run = Raise e /\ snd run = admitted now s
             /\ (exists status_code detail,
                   e = HTTPException status_code detail))
  \/ (fst (_consume_token now (limiter s)) = true
      /\ snd run = snd gen
      /\ fst run = completed rq (fst gen)).
Proof.
  unfold replace_background_with, consume, admitted, max_dim, completed.
  unfold try_except, bind, lift, ret, raise.
  destruct (_consume_token now (limiter s)) as [ok b]. cbn [fst snd].
  destruct ok; cbn [negb].
  2:{ left. eexists. split; [reflexivity|]. split; [reflexivity|].
      eexists _, _. reflexivity. }
  destruct ((steps rq <? 1) || (100 <? steps rq)).
  { left. eexists. split; [reflexivity|]. split; [reflexivity|].
    eexists _, _. reflexivity. }
  destruct (Qltb (guidance_scale rq) 1 || Qltb 20 (guidance_scale rq)).
  { left. eexists. split; [reflexivity|]. split; [reflexivity|].
    eexists _, _. reflexivity. }
  cbn [fst snd].
  destruct (load_image rq) as [[h w]|e].
  2:{ left. eexists. split; [reflexivity|]. split; [reflexivity|].
      apply as_http_is_http. }
  destruct (masking rq) as [[]|e].
  2:{ left. eexists. split; [reflexivity|]. split; [reflexivity|].
      apply as_http_is_http. }
  right. split; [reflexivity|].
  destruct (generate adapter cfg rq (Z.max w h) _) as [[bg|e] s1];
    cbn [fst snd]; [|split; reflexivity].
  destruct (finish rq bg); split; reflexivity.
Qed.

Lemma completed_is_http (rq : request) (bg : result ndarray) :
  match completed rq bg with
  | Ok resp => success resp = true
  | Raise e => exists status_code detail, e = HTTPException status_code detail
  end.
Proof.
  unfold completed. destruct bg as [bg|e]; [|apply as_http_is_http].
  destruct (finish rq bg); [reflexivity | apply as_http_is_http].
Qed.

End HandlerFacts.

(** X18: every request takes part in the rate limit exactly once, whatever
    becomes of it: the bucket the handler leaves is the bucket after one
    [_consume_token], also when the request is then rejected or fails (a
    token taken is not given back).  And no exception other than an
    [HTTPException] leaves the handler: it answers with a response whose
    [success] is true or with an error status. *)
Theorem replace_background_costs_one_token
    (adapter : list string) (cfg : Service.settings) (rq : Service.request)
    (now : Q) (s : Service.server) :
  let run := Service.replace_background_with adapter cfg rq now s in
  Service.limiter (snd run)
    = snd (Service._consume_token now (Service.limiter s))
  /\ match fst run with
     | Ok resp => Service.success resp = true
     | Raise e =>
         exists status_code detail, e = HTTPException status_code detail
     end.
Proof.
  intros run.
  destruct (replace_background_shape adapter cfg rq now s)
    as [(e & Hfst & Hsnd & Hhttp) | (_ & Hsnd & Hfst)]; fold run in Hfst, Hsnd.
  - rewrite Hfst, Hsnd. split; [reflexivity | exact Hhttp].
  - rewrite Hfst, Hsnd. split; [|apply completed_is_http].
    destruct (generate_events adapter cfg rq (Service.max_dim rq)
                (Service.admitted now s)) as (new & _ & Hlim & _).
    rewrite Hlim. reflexivity.
Qed.

Section EngineChoice.
Import Generate Service ServiceRuns.

Ltac open_generate :=
  unfold generate, try_except, emit;
  unfold bind, lift, ret, raise; simpl.

Lemma import_remote_fails :
  import_from Runway.module_names "generate_background_remote"
  = raise (ImportError "generate_background_remote").
Proof.
  unfold import_from. rewrite bool_decide_eq_false_2; [reflexivity|].
  rewrite list_elem_of_In. vm_compute. intuition discriminate.
Qed.

Lemma completed_ok (rq : request) (bg : result ndarray) :
  is_ok (completed rq bg) = true -> is_ok bg = true.
Proof. destruct bg; [reflexivity | discriminate]. Qed.

(** An image over the size limit stops [generate] before any engine is
    called. *)
Lemma generate_oversize (adapter : list string) (cfg : settings)
    (rq : request) (md : Z) (s : server) :
  is_ok (RUNWAY_TIMEOUT_MS cfg) = true ->
  (4096 <? md) && negb (flag (ALLOW_4K cfg)) = true ->
  exists detail new,
    fst (generate adapter cfg rq md s)
      = Raise (HTTPException (oversize_status cfg) detail)
    /\ events (snd (generate adapter cfg rq md s)) = events s ++ new
    /\ existsb is_engine_call new = false.
Proof.
  intros Htimeout Hsize. unfold oversize_status.
  open_generate.
  destruct (RUNWAY_TIMEOUT_MS cfg) as [t|]; [|discriminate]. simpl.
  rewrite ?Hsize.
  destruct (bg_engine cfg); simpl.
  - rewrite ?Hsize. simpl. eexists _, []. rewrite app_nil_r.
    repeat split.
  - destruct (flag (BG_FALLBACK_LOCAL cfg)); simpl.
    + rewrite ?Hsize. simpl. rewrite <- ?app_assoc. simpl.
      eexists _, _. split; [reflexivity|]. split; reflexivity.
    + eexists _, _. split; [reflexivity|]. split; reflexivity.
Qed.

(** With the names [runway_adapter] really binds, the import in the
    remote branch fails, so the remote engine is not called. *)
Lemma generate_never_remote (cfg : settings) (rq : request) (md : Z)
    (s : server) :
  let gen := generate Runway.module_names cfg rq md s in
  exists new,
    events (snd gen) = events s ++ new
    /\ existsb is_remote_call new = false
    /\ (is_ok (fst gen) = true -> existsb is_local_call new = true)
    /\ (bg_engine cfg = RUNWAY -> flag (BG_FALLBACK_LOCAL cfg) = false ->
        is_ok (fst gen) = false).
Proof.
  unfold generate. rewrite import_remote_fails.
  unfold try_except, emit, bind, lift, ret, raise. simpl.
  repeat (case_head; simpl).
  all: rewrite <- ?app_assoc; simpl.
  all: first [ eexists; split; [reflexivity|]
             | exists []; rewrite app_nil_r; split; [reflexivity|] ].
  all: split; [reflexivity|].
  all: split; [intros Hok; first [reflexivity | discriminate] |].
  all: intros Hengine Hflag; try reflexivity.
  all: first [rewrite Hengine in *; discriminate | congruence].
Qed.

End EngineChoice.

(** X19: an image whose larger side exceeds 4096 pixels, without
    [ALLOW_4K=1], is refused before any engine is called, the token being
    spent all the same.  The status is 400, except with the remote engine
    preferred and no fallback, where the refusal raised in the remote
    branch is caught with the other failures of that branch and answered
    as 500. *)
Theorem oversize_is_refused_before_any_engine
    (adapter : list string) (cfg : Service.settings) (rq : Service.request)
    (now : Q) (s : Service.server) :
  Service.reaches_generation cfg rq now s = true ->
  Service.too_large cfg rq = true ->
  let run := Service.replace_background_with adapter cfg rq now s in
  (exists detail,
     fst run = Raise (HTTPException (ServiceRuns.oversize_status cfg) detail))
  /\ (exists new,
        Service.events (snd run) = Service.events s ++ new
        /\ existsb ServiceRuns.is_engine_call new = false)
  /\ Service.limiter (snd run)
     = snd (Service._consume_token now (Service.limiter s)).
Proof.
  intros Hreach Hsize run.
  assert (Htimeout : is_ok (Service.RUNWAY_TIMEOUT_MS cfg) = true).
  { unfold Service.reaches_generation in Hreach.
    apply andb_true_iff in Hreach. exact (proj2 Hreach). }
  assert (Hrun : run = _) by
    exact (replace_background_reaches adapter cfg rq now s Hreach).
  destruct (generate_oversize adapter cfg rq (Service.max_dim rq)
              (Service.admitted now s) Htimeout Hsize)
    as (detail & new & Hfst & Hev & Hnone).
  destruct (generate_events adapter cfg rq (Service.max_dim rq)
              (Service.admitted now s)) as (new' & _ & Hlim & _).
  rewrite Hrun. cbn [fst snd]. rewrite Hfst, Hev, Hlim.
  split; [exists detail; reflexivity|].
  split; [exists new; split; [reflexivity | exact Hnone] | reflexivity].
Qed.

Lemma oversize_is_refused_before_any_engine_witness :
  (exists detail,
     fst (Service.replace_background Service.sdxl_only Service.billboard 0
            Service.idle) = Raise (HTTPException 400 detail))
  /\ (exists detail,
        fst (Service.replace_background Service.runway_only
               Service.billboard 0 Service.idle)
        = Raise (HTTPException 500 detail))
  /\ (exists detail,
        fst (Service.replace_background Service.runway_with_fallback
               Service.billboard 0 Service.idle)
        = Raise (HTTPException 400 detail)).
Proof.
  split; [|split].
  - exact (proj1 (oversize_is_refused_before_any_engine Runway.module_names
                    Service.sdxl_only Service.billboard 0 Service.idle
                    eq_refl eq_refl)).
  - exact (proj1 (oversize_is_refused_before_any_engine Runway.module_names
                    Service.runway_only Service.billboard 0 Service.idle
                    eq_refl eq_refl)).
  - exact (proj1 (oversize_is_refused_before_any_engine Runway.module_names
                    Service.runway_with_fallback Service.billboard 0
                    Service.idle eq_refl eq_refl)).
Defined.

(** X20: as the service is written, the remote engine is never called:
    the function the handler imports from [runway_adapter] is not among
    the names that module binds, so the remote branch always fails at the
    import.  Hence no request causes a remote call; every successful
    response was generated by the local engine; and with the remote
    engine preferred and no fallback, no request succeeds. *)
Theorem remote_engine_is_never_called
    (cfg : Service.settings) (rq : Service.request) (now : Q)
    (s : Service.server) :
  let run := Service.replace_background cfg rq now s in
  exists new,
    Service.events (snd run) = Service.events s ++ new
    /\ existsb Service.is_remote_call new = false
    /\ (is_ok (fst run) = true ->
        existsb ServiceRuns.is_local_call new = true)
    /\ (Service.bg_engine cfg = Service.RUNWAY ->
        Service.flag (Service.BG_FALLBACK_LOCAL cfg) = false ->
        is_ok (fst run) = false).
Proof.
  intros run. unfold Service.replace_background in run.
  destruct (replace_background_shape Runway.module_names cfg rq now s)
    as [(e & Hfst & Hsnd & _) | (_ & Hsnd & Hfst)]; fold run in Hfst, Hsnd.
  - exists []. rewrite Hfst, Hsnd, app_nil_r.
    split; [reflexivity|]. split; [reflexivity|].
    split; [discriminate | reflexivity].
  - destruct (generate_never_remote cfg rq (Service.max_dim rq)
                (Service.admitted now s))
      as (new & Hev & Hremote & Hlocal & Hdead).
    exists new. rewrite Hfst, Hsnd.
    split; [exact Hev|]. split; [exact Hremote|]. split.
    + intros Hok. apply Hlocal. exact (completed_ok _ _ Hok).
    + intros Hengine Hflag. specialize (Hdead Hengine Hflag).
      destruct (fst (Service.generate _ _ _ _ _)); [discriminate|].
      reflexivity.
Qed.

Lemma remote_engine_is_never_called_witness :
  is_ok (fst (Service.replace_background Service.runway_only
                Service.portrait 0 Service.idle)) = false.
Proof.
  destruct (remote_engine_is_never_called Service.runway_only
              Service.portrait 0 Service.idle) as (new & _ & _ & _ & Hdead).
  exact (Hdead eq_refl eq_refl).
Defined.

(** ** The client's retry loop *)

Section ClientRetries.
Import BackgroundClient.

Variable cfg : BackgroundClientConfig.
Variable network : nat -> post_reply.

(** What the [try] statement of an attempt can come to. *)
Lemma try_post_cases (reply : post_reply) (attempt : Z) :
  match try_post cfg reply attempt with
  | falls_through =>
      (attempt =? retry_attempts cfg - 1) = false
      /\ ends_call reply = false
  | leaves out =>
      out <> returned_None
      /\ (forall e, out <> escaped e)
      /\ (ends_call reply = false ->
          (attempt =? retry_attempts cfg - 1) = true)
      /\ (forall r, out = returned r ->
            success r = true
            /\ exists text, reply = response 200 text (Ok r))
      /\ (forall e, out = raised e ->
            gave_up e = negb (ends_call reply))
  end.
Proof.
  unfold try_post.
  destruct reply as [status_code text json| | |e]; cbn [ends_call].
  - destruct (status_code =? 200) eqn:Hcode; cbn [negb orb].
    + apply Z.eqb_eq in Hcode. subst status_code.
      destruct json as [result|e]; cbn [is_ok].
      * destruct (success result) eqn:Hs.
        -- split; [discriminate|]. split; [discriminate|].
           split; [discriminate|]. split; [|discriminate].
           intros r H. injection H as <-. split; [exact Hs|].
           exists text. reflexivity.
        -- split; [discriminate|]. split; [discriminate|].
           split; [discriminate|]. split; [discriminate|].
           intros e H. injection H as <-. reflexivity.
      * destruct (attempt =? retry_attempts cfg - 1); [|split; reflexivity].
        split; [discriminate|]. split; [discriminate|].
        split; [reflexivity|]. split; [discriminate|].
        intros e' H. injection H as <-. reflexivity.
    + split; [discriminate|]. split; [discriminate|].
      split; [discriminate|]. split; [discriminate|].
      intros e H. injection H as <-. reflexivity.
  - destruct (attempt =? retry_attempts cfg - 1); [|split; reflexivity].
    split; [discriminate|]. split; [discriminate|].
    split; [reflexivity|]. split; [discriminate|].
    intros e H. injection H as <-. reflexivity.
  - destruct (attempt =? retry_attempts cfg - 1); [|split; reflexivity].
    split; [discriminate|]. split; [discriminate|].
    split; [reflexivity|]. split; [discriminate|].
    intros e H. injection H as <-. reflexivity.
  - destruct (attempt =? retry_attempts cfg - 1); [|split; reflexivity].
    split; [discriminate|]. split; [discriminate|].
    split; [reflexivity|]. split; [discriminate|].
    intros e' H. injection H as <-. reflexivity.
Qed.

(** The sign of a sleep is the sign of [retry_delay]. *)
Lemma backoff_negative (attempt : nat) :
  Qltb (backoff cfg (Z.of_nat attempt)) 0 = true ->
  (retry_delay cfg < 0)%Q.
Proof.
  intros H. apply Qltb_lt in H. unfold backoff in H.
  assert (Hpow : (0 < inject_Z (2 ^ Z.of_nat attempt))%Q).
  { change 0%Q with (inject_Z 0). rewrite <- Zlt_Qlt.
    apply Z.pow_pos_nonneg; lia. }
  destruct (Qlt_le_dec (retry_delay cfg) 0) as [Hneg|Hpos]; [exact Hneg|].
  exfalso. pose proof (Qmult_le_0_compat _ _ Hpos (Qlt_le_weak _ _ Hpow)).
  lra.
Qed.

(** The loop over the attempts [first .. first + k - 1], the last of
    which is attempt [retry_attempts - 1]. *)
Lemma attempts_spec (k : nat) :
  forall (first : nat) (st : client_state),
    (k = 0%nat \/ Z.of_nat (first + k) = retry_attempts cfg) ->
    let run := attempts cfg network (map Z.of_nat (seq first k)) st in
    exists j : nat,
      (j <= k)%nat /\ (k = 0%nat <-> j = 0%nat)
      /\ posts (snd run) = (posts st + j)%nat
      /\ sleeps (snd run) = sleeps st ++ backoffs cfg first (j - 1)
      /\ (fst run = returned_None <-> k = 0%nat)
      /\ (forall i, (S i < j)%nat ->
            ends_call (network (posts st + i)%nat) = false)
      /\ (forall r, fst run = returned r ->
            success r = true
            /\ exists i text,
                 j = S i
                 /\ network (posts st + i)%nat = response 200 text (Ok r))
      /\ (forall e, fst run = raised e ->
            exists i, j = S i
              /\ gave_up e = negb (ends_call (network (posts st + i)%nat))
              /\ (gave_up e = true -> j = k))
      /\ (forall e, fst run = escaped e -> (retry_delay cfg < 0)%Q).
Proof.
  induction k as [|k IH]; intros first st Hlast run.
  - exists 0%nat. unfold run, backoffs. simpl. rewrite app_nil_r.
    repeat split; try lia; try discriminate; try reflexivity.
  - assert (Hn : Z.of_nat (first + S k) = retry_attempts cfg)
      by (destruct Hlast as [H|H]; [discriminate | exact H]).
    unfold run. cbn [seq map attempts].
    pose proof (try_post_cases (network (posts st)) (Z.of_nat first))
      as Hcase.
    destruct (try_post cfg (network (posts st)) (Z.of_nat first))
      as [out|].
    + destruct Hcase as (Hnone & Hesc & Hfinal & Hret & Hraise).
      exists 1%nat. cbn [fst snd posts sleeps]. unfold backoffs. simpl.
      rewrite app_nil_r.
      split; [lia|]. split; [split; intros; lia|].
      split; [lia|]. split; [reflexivity|].
      split; [split; [intros H; contradiction | discriminate]|].
      split; [intros i Hi; lia|]. split; [|split].
      * intros r Hr. destruct (Hret r Hr) as (Hs & text & Hreply).
        split; [exact Hs|]. exists 0%nat, text.
        rewrite Nat.add_0_r. split; [reflexivity | exact Hreply].
      * intros e He. exists 0%nat. rewrite Nat.add_0_r.
        split; [reflexivity|]. split; [exact (Hraise e He)|].
        intros Hgave. rewrite (Hraise e He) in Hgave.
        apply negb_true_iff in Hgave. specialize (Hfinal Hgave).
        apply Z.eqb_eq in Hfinal. lia.
      * intros e He. exfalso. exact (Hesc e He).
    + destruct Hcase as (Hnotlast & Hgoes).
      apply Z.eqb_neq in Hnotlast.
      assert (Hk : (0 < k)%nat) by lia.
      assert (Hlt : (Z.of_nat first <? retry_attempts cfg - 1) = true)
        by (apply Z.ltb_lt; lia).
      rewrite Hlt. cbn [posts sleeps].
      destruct (Qltb (backoff cfg (Z.of_nat first)) 0) eqn:Hsleep.
      { exists 1%nat. cbn [fst snd posts sleeps]. unfold backoffs. simpl.
        rewrite app_nil_r.
        split; [lia|]. split; [split; intros; lia|].
        split; [lia|]. split; [reflexivity|].
        split; [split; [discriminate | discriminate]|].
        split; [intros i Hi; lia|]. split; [discriminate|].
        split; [discriminate|].
        intros e _. exact (backoff_negative first Hsleep). }
      destruct (IH (S first)
                  {| posts := S (posts st);
                     sleeps := sleeps st ++ [backoff cfg (Z.of_nat first)] |})
        as (j & Hle & Hzero & Hposts & Hsleeps & Hnone & Hearly & Hret
            & Hraise & Hesc).
      { right. rewrite <- Hn. f_equal. lia. }
      cbn [posts sleeps] in Hposts, Hsleeps, Hearly, Hret, Hraise.
      assert (Hj : (0 < j)%nat).
      { destruct j; [|lia]. destruct Hzero as [_ Hz].
        specialize (Hz eq_refl). lia. }
      exists (S j).
      split; [lia|]. split; [split; intros; lia|].
      split; [rewrite Hposts; lia|]. split.
      { rewrite Hsleeps, <- app_assoc. f_equal.
        unfold backoffs. replace (S j - 1)%nat with (S (j - 1)) by lia.
        reflexivity. }
      split; [rewrite Hnone; split; intros; lia|].
      split.
      { intros i Hi. destruct i as [|i].
        - rewrite Nat.add_0_r. exact Hgoes.
        - replace (posts st + S i)%nat with (S (posts st) + i)%nat by lia.
          apply Hearly. lia. }
      split.
      { intros r Hr. destruct (Hret r Hr) as (Hs & i & text & -> & Hreply).
        split; [exact Hs|]. exists (S i), text.
        split; [reflexivity|].
        replace (posts st + S i)%nat with (S (posts st) + i)%nat by lia.
        exact Hreply. }
      split; [|exact Hesc].
      intros e He. destruct (Hraise e He) as (i & -> & Hgave & Hall).
      exists (S i). split; [reflexivity|].
      replace (posts st + S i)%nat with (S (posts st) + i)%nat by lia.
      split; [exact Hgave|]. intros H. specialize (Hall H). lia.
Qed.

End ClientRetries.


(** X22: what [_make_request] returns is the decoded body of the last
    reply, an HTTP 200 whose [success] is true.  An error for a failure
    of the transport ([TIMEOUT], [CONNECTION_ERROR], [UNKNOWN_ERROR]) is
    raised only once all [retry_attempts] attempts have been made, for a
    last reply that was such a failure; any other error is raised for the
    HTTP response that carried it. *)
Theorem make_request_outcome_is_last_reply
    (cfg : BackgroundClient.BackgroundClientConfig)
    (network : nat -> BackgroundClient.post_reply)
    (st : BackgroundClient.client_state) :
  let run := BackgroundClient._make_request cfg network st in
  let made :=
    (BackgroundClient.posts (snd run) - BackgroundClient.posts st)%nat in
  let last := network (BackgroundClient.posts (snd run) - 1)%nat in
  (forall r, fst run = BackgroundClient.returned r ->
     (0 < made)%nat
     /\ BackgroundClient.success r = true
     /\ exists text, last = BackgroundClient.response 200 text (Ok r))
  /\ (forall e, fst run = BackgroundClient.raised e ->
        (0 < made)%nat
        /\ BackgroundClient.gave_up e
           = negb (BackgroundClient.ends_call last)
        /\ (BackgroundClient.gave_up e = true ->
            Z.of_nat made = BackgroundClient.retry_attempts cfg)).
Proof.
  intros run made last.
  unfold BackgroundClient._make_request, BackgroundClient.range in run.
  destruct (attempts_spec cfg network
              (Z.to_nat (BackgroundClient.retry_attempts cfg)) 0%nat st)
    as (j & Hle & Hzero & Hposts & _ & _ & _ & Hret & Hraise & _).
  { destruct (Z_le_gt_dec (BackgroundClient.retry_attempts cfg) 0);
      [left | right]; lia. }
  fold run in Hposts, Hret, Hraise.
  split.
  - intros r Hr. destruct (Hret r Hr) as (Hs & i & text & -> & Hreply).
    unfold made, last. rewrite Hposts.
    split; [lia|]. split; [exact Hs|]. exists text.
    replace (BackgroundClient.posts st + S i - 1)%nat
      with (BackgroundClient.posts st + i)%nat by lia.
    exact Hreply.
  - intros e He. destruct (Hraise e He) as (i & -> & Hgave & Hall).
    unfold made, last. rewrite Hposts.
    replace (BackgroundClient.posts st + S i - 1)%nat
      with (BackgroundClient.posts st + i)%nat by lia.
    split; [lia|]. split; [exact Hgave|].
    intros H. specialize (Hall H). lia.
Qed.

Lemma make_request_outcome_is_last_reply_witness :
  let done :=
    {| BackgroundClient.success := true; BackgroundClient.error := None;
       BackgroundClient.output_path := Some "out/door.jpg" |} in
  let flaky := fun i : nat =>
    match i with
    | O => BackgroundClient.Timeout
    | S O => BackgroundClient.ConnectionError
    | _ => BackgroundClient.response 200 "" (Ok done)
    end in
  let down := fun _ : nat => BackgroundClient.ConnectionError in
  BackgroundClient._make_request BackgroundClient.default_config flaky
    BackgroundClient.fresh
  = (BackgroundClient.returned done,
     {| BackgroundClient.posts := 3;
        BackgroundClient.sleeps := [1 * inject_Z 1; 1 * inject_Z 2]%Q |})
  /\ Z.of_nat
       (BackgroundClient.posts
          (snd (BackgroundClient._make_request
                  BackgroundClient.default_config down
                  BackgroundClient.fresh)) - 0) = 3.
Proof.
  intros done flaky down. split; [reflexivity|].
  destruct (make_request_outcome_is_last_reply
              BackgroundClient.default_config down BackgroundClient.fresh)
    as (_ & Hraise).
  destruct (Hraise {| BackgroundClient.message := "Connection failed";
                      BackgroundClient.code := "CONNECTION_ERROR" |}
              eq_refl) as (_ & _ & Hall).
  exact (Hall eq_refl).
Defined.

(** ** Both endpoints against the one bucket *)

Section SharedBucket.
Import Generate Service Endpoints.




End SharedBucket.



(** ** The directory an output file is put in *)

Section SlugFacts.
Import Stdlib.Strings.Ascii Slug.

Lemma rstrip_prefix (s : list Ascii.ascii) :
  exists t, s = rstrip s ++ t.
Proof.
  induction s as [|c rest [t IH]]; [exists []; reflexivity|].
  cbn [rstrip]. destruct (rstrip rest) as [|d stripped] eqn:Hr.
  - destruct (isspace c); [exists (c :: rest) | exists rest]; reflexivity.
  - exists t. rewrite IH at 1. reflexivity.
Qed.

Lemma rstrip_last (s : list Ascii.ascii) :
  forall r c, rstrip s = r ++ [c] -> isspace c = false.
Proof.
  induction s as [|a rest IH]; intros r c H; cbn [rstrip] in H.
  - destruct r; discriminate.
  - destruct (rstrip rest) as [|d stripped] eqn:Hr.
    + destruct (isspace a) eqn:Ha; [destruct r; discriminate|].
      destruct r as [|x r]; [injection H as <-; exact Ha|].
      destruct r; discriminate.
    + destruct r as [|x r]; [discriminate|].
      injection H as _ H. exact (IH r c H).
Qed.

Lemma rstrip_fixed (s : list Ascii.ascii) :
  (forall r c, s = r ++ [c] -> isspace c = false) -> rstrip s = s.
Proof.
  induction s as [|a rest IH]; intros Hlast; [reflexivity|].
  cbn [rstrip]. rewrite IH.
  - destruct rest as [|b rest]; [|reflexivity].
    rewrite (Hlast [] a eq_refl). reflexivity.
  - intros r c ->. apply (Hlast (a :: r) c). reflexivity.
Qed.

Lemma filter_kept_all (s : list Ascii.ascii) :
  Forall (fun c => kept c = true) (List.filter kept s).
Proof.
  induction s as [|c rest IH]; cbn [List.filter]; [constructor|].
  destruct (kept c) eqn:Hc; [constructor; assumption | exact IH].
Qed.

Lemma filter_kept_fixed (s : list Ascii.ascii) :
  Forall (fun c => kept c = true) s -> List.filter kept s = s.
Proof.
  induction 1 as [|c rest Hc _ IH]; cbn [List.filter]; [reflexivity|].
  rewrite Hc, IH. reflexivity.
Qed.

(** The characters the slug is made of. *)
Lemma slug_chars (stem : string) :
  exists d : list Ascii.ascii,
    chars (slug stem) = d /\ d <> []
    /\ Forall (fun c => kept c = true) d
    /\ (forall r c, d = r ++ [c] -> isspace c = false).
Proof.
  unfold slug.
  pose proof (filter_kept_all (chars stem)) as Hall.
  pose proof (rstrip_prefix (List.filter kept (chars stem))) as [t Hpre].
  pose proof (rstrip_last (List.filter kept (chars stem))) as Hlast.
  destruct (rstrip (List.filter kept (chars stem))) as [|c d] eqn:Hr.
  - eexists. split; [reflexivity|]. split; [discriminate|].
    split; [repeat constructor|].
    intros r c H.
    assert (Hc : In c (chars "image"))
      by (change (chars "image") with (r ++ [c]) || rewrite H;
          apply in_or_app; right; left; reflexivity).
    simpl in Hc. intuition (subst; reflexivity).
  - exists (c :: d). unfold chars at 1.
    rewrite String.list_ascii_of_string_of_list_ascii.
    split; [reflexivity|]. split; [discriminate|]. split; [|exact Hlast].
    rewrite Hpre in Hall. apply Forall_app in Hall. exact (proj1 Hall).
Qed.


(** X24: the directory name [generate_output_path] derives from a file
    name is never empty, is made only of letters, digits, spaces, hyphens
    and underscores -- so it holds no path separator and no dot -- and
    does not end with a space; deriving a name from it again gives the
    same name.  (File names in ASCII.) *)
Theorem slug_is_a_plain_directory_name (stem : string) :
  Forall (fun c => Slug.is_ascii c = true) (Slug.chars stem) ->
  let d := Slug.slug stem in
  d <> ""
  /\ Forall (fun c => Slug.kept c = true) (Slug.chars d)
  /\ ~ In "/"%char (Slug.chars d) /\ ~ In "."%char (Slug.chars d)
  /\ (forall r c, Slug.chars d = r ++ [c] -> c <> " "%char)
  /\ Slug.slug d = d.
Proof.
  intros _ d. destruct (slug_chars stem) as (l & Hl & Hne & Hall & Hlast).
  fold d in Hl.
  assert (Hd : d = String.string_of_list_ascii l).
  { rewrite <- Hl. unfold Slug.chars.
    rewrite String.string_of_list_ascii_of_string. reflexivity. }
  assert (Hnot : forall c, Slug.kept c = false -> ~ In c l).
  { intros c Hc Hin. rewrite Forall_forall in Hall.
    apply list_elem_of_In in Hin. specialize (Hall c Hin). congruence. }
  split; [intros H; rewrite H in Hl; apply Hne; rewrite <- Hl; reflexivity|].
  rewrite Hl.
  split; [exact Hall|]. split; [apply Hnot; reflexivity|].
  split; [apply Hnot; reflexivity|]. split.
  - intros r c Hr Hc. subst c. specialize (Hlast r _ Hr). discriminate.
  - unfold Slug.slug. rewrite Hl.
    rewrite (filter_kept_fixed l Hall), (rstrip_fixed l Hlast).
    destruct l; [contradiction | symmetry; exact Hd].
Qed.

Lemma slug_is_a_plain_directory_name_witness :
  Slug.slug "front door (2).final " = "front door 2final"
  /\ Slug.slug "(!)" = "image"
  /\ ~ In "."%char (Slug.chars (Slug.slug "front door (2).final ")).
Proof.
  split; [reflexivity|]. split; [reflexivity|].
  destruct (slug_is_a_plain_directory_name "front door (2).final ")
    as (_ & _ & _ & Hdot & _).
  - repeat constructor.
  - exact Hdot.
Defined.

End SlugFacts.

(** ** One remote generation *)



(** ** Shutdown *)

(** X26: shutting the service down with the SDXL engine configured
    leaves no usable generator.  A generator that exists is unloaded, its
    cache kept; when there is none, the shutdown first builds one --
    loading the model -- only to unload it.  Afterwards, as long as the
    global is set, every [generate_background_sdxl] raises the
    "not available" error and no model is loaded again. *)
Theorem shutdown_leaves_no_usable_generator
    (from_pretrained : result unit) (m : GenerateModule.module_state) :
  let m' := Lifecycle.shutdown_event Service.SDXL from_pretrained m in
  (forall g, GenerateModule._sdxl_generator m = Some g ->
     GenerateModule._sdxl_generator m' = Some (Generate.cleanup g)
     /\ GenerateModule.constructed m' = GenerateModule.constructed m)
  /\ (GenerateModule._sdxl_generator m = None ->
      is_ok from_pretrained = true ->
      GenerateModule.constructed m' = S (GenerateModule.constructed m)
      /\ exists g, GenerateModule._sdxl_generator m' = Some g)
  /\ (forall g, GenerateModule._sdxl_generator m' = Some g ->
      Generate.pipeline_loaded g = false
      /\ forall c cs,
           fst (GenerateModule.run_call c m')
             = Raise (RuntimeError "SDXL pipeline not available")
           /\ GenerateModule.run_calls cs m' = m').
Proof.
  intros m'. unfold Lifecycle.shutdown_event in m'. cbn [Service.is_sdxl] in m'.
  unfold GenerateModule.get_sdxl_generator in m'.
  assert (Hoff : forall g,
    GenerateModule._sdxl_generator m' = Some g ->
    Generate.pipeline_loaded g = false).
  { intros g. unfold m'.
    destruct (GenerateModule._sdxl_generator m) as [g0|] eqn:Hg.
    - cbn. intros H. injection H as <-. reflexivity.
    - unfold GenerateModule.new_generator, GenerateModule.set_generator,
        bind, ret.
      destruct from_pretrained as [[]|e]; cbn.
      + intros H. injection H as <-. reflexivity.
      + rewrite Hg. discriminate. }
  split; [|split].
  - intros g Hg. unfold m'. rewrite Hg. cbn. split; reflexivity.
  - intros Hnone Hload. unfold m'. rewrite Hnone.
    unfold GenerateModule.new_generator, GenerateModule.set_generator,
      bind, ret.
    destruct from_pretrained as [[]|e]; [|discriminate]. cbn.
    split; [reflexivity | eexists; reflexivity].
  - intros g Hg. split; [exact (Hoff g Hg)|].
    assert (Hcall : forall c,
      GenerateModule.run_call c m'
      = (Raise (RuntimeError "SDXL pipeline not available"), m')).
    { intros c. unfold GenerateModule.run_call.
      destruct (Generate.rq_key (GenerateModule.sc_request c))
        as [[[[[[prompt negative] width] height] steps] scale] seed].
      unfold GenerateModule.generate_background_sdxl,
        GenerateModule.get_sdxl_generator, bind.
      rewrite Hg.
      unfold Generate.generate_background, Generate.is_available.
      rewrite (Hoff g Hg). cbn [negb].
      destruct m' as [gen n l]. cbn in Hg |- *. rewrite Hg. reflexivity. }
    intros c cs. split; [rewrite Hcall; reflexivity|].
    induction cs as [|c' cs IH]; [reflexivity|].
    cbn [GenerateModule.run_calls]. rewrite Hcall. exact IH.
Qed.

Lemma shutdown_leaves_no_usable_generator_witness :
  let m' :=
    Lifecycle.shutdown_event Service.SDXL (Ok tt) GenerateModule.unloaded in
  GenerateModule.constructed m' = 1%nat
  /\ exists g, GenerateModule._sdxl_generator m' = Some g
               /\ Generate.pipeline_loaded g = false.
Proof.
  intros m'.
  destruct (shutdown_leaves_no_usable_generator (Ok tt)
              GenerateModule.unloaded) as (_ & Hbuilt & Hoff).
  destruct (Hbuilt eq_refl eq_refl) as (Hn & g & Hg).
  split; [exact Hn|]. exists g. split; [exact Hg|].
  exact (proj1 (Hoff g Hg)).
Defined.
